(** * Biomass analysis for blue-carbon drone imagery

    A shallow embedding of [data-analysis/biomass_analysis.py] (class
    [BiomassAnalyzer]) and the properties of its feature extraction,
    estimation and aggregation pipeline.

    Numbers.  Python floats are IEEE-754 binary64 and the image arrays are
    binary32 ([astype(np.float32)]); both are modelled by the Standard
    Library's [spec_float] with the operations of [SpecFloat] (round to
    nearest even), at precision 53/1024 and 24/128.  NaN, the infinities and
    the signed zeros are therefore part of the model.

    Effects.  Exceptions are explicit ([outcome]); every [try ... except
    Exception] of the source is a [try_except].  The OpenCV entry points, the
    regression backend and the wall clock are the fields of a [world]; the
    clock is threaded as the number of readings made so far.  Calls to the
    logger are not modelled. *)

From Stdlib Require Import ZArith Bool String List Lia DecimalString.
From Stdlib Require Import Floats.SpecFloat.
Import ListNotations.
Open Scope Z_scope.

(* ================================================================== *)
(** * Part I. The model                                                 *)
(* ================================================================== *)

(** ** Exceptions *)

Inductive exn : Type :=
| Exn (kind : string) (msg : string).

(** [str(e)] *)
Definition str (e : exn) : string :=
  match e with Exn _ msg => msg end.

Inductive outcome (A : Type) : Type :=
| Return (a : A)
| Raise (e : exn).

Arguments Return {A} a.
Arguments Raise {A} e.

Definition bind {A B : Type} (c : outcome A) (k : A -> outcome B) : outcome B :=
  match c with
  | Return a => k a
  | Raise e => Raise e
  end.

Notation "x <- c ;; k" := (bind c (fun x => k))
  (at level 61, c at next level, right associativity).

(** [try: body  except Exception as e: handler e] *)
Definition try_except {A : Type} (body : outcome A) (handler : exn -> A) : A :=
  match body with
  | Return a => a
  | Raise e => handler e
  end.

(** [l[i]] for a non-negative index. *)
Definition getitem {A : Type} (l : list A) (i : nat) : outcome A :=
  match nth_error l i with
  | Some x => Return x
  | None => Raise (Exn "IndexError" "index out of bounds")
  end.

(** ** Floating-point numbers *)

Definition f32 : Type := spec_float.
Definition f64 : Type := spec_float.

Definition is_nan (x : spec_float) : bool :=
  match x with S754_nan => true | _ => false end.

Definition is_inf (x : spec_float) : bool :=
  match x with S754_infinity _ => true | _ => false end.

Definition is_zero (x : spec_float) : bool :=
  match x with S754_zero _ => true | _ => false end.

(** [math.isfinite]: a zero or a finite non-zero number. *)
Definition is_finite (x : spec_float) : bool :=
  match x with S754_zero _ | S754_finite _ _ _ => true | _ => false end.

(** Conversion of an integer, rounding to nearest. *)
Definition of_Z (prec emax : Z) (k : Z) : spec_float :=
  binary_normalize prec emax k 0 false.

Definition of_Z32 : Z -> f32 := of_Z 24 128.
Definition add32 : f32 -> f32 -> f32 := SFadd 24 128.
Definition sub32 : f32 -> f32 -> f32 := SFsub 24 128.
Definition mul32 : f32 -> f32 -> f32 := SFmul 24 128.
Definition div32 : f32 -> f32 -> f32 := SFdiv 24 128.

Definition of_Z64 : Z -> f64 := of_Z 53 1024.
Definition add64 : f64 -> f64 -> f64 := SFadd 53 1024.
Definition sub64 : f64 -> f64 -> f64 := SFsub 53 1024.
Definition mul64 : f64 -> f64 -> f64 := SFmul 53 1024.
Definition div64 : f64 -> f64 -> f64 := SFdiv 53 1024.

(** The mantissa of a power of two: a one followed by [prec - 1] zeros. *)
Definition pow2_mantissa (prec : Z) : positive :=
  Pos.shiftl 1 (Z.to_N (prec - 1)).

(** A decimal literal [n/d] of the source: the binary64 number nearest to it
    (division is correctly rounded, and [n], [d] convert exactly). *)
Definition decimal64 (n d : Z) : f64 := div64 (of_Z64 n) (of_Z64 d).
Definition decimal32 (n d : Z) : f32 := div32 (of_Z32 n) (of_Z32 d).

(** [float(x)] of a binary32 value: widening is exact, only the mantissa is
    re-normalised to 53 digits. *)
Definition to_f64 (x : f32) : f64 :=
  match x with
  | S754_finite s m e => binary_round 53 1024 s m e
  | _ => x
  end.

(** [x] is a number (not NaN) whose sign bit is [s]. *)
Definition sign_is (s : bool) (x : spec_float) : Prop :=
  match x with
  | S754_nan => False
  | S754_zero s' | S754_infinity s' | S754_finite s' _ _ => s' = s
  end.

(** The mantissa of [x] has at most [prec] digits and its exponent is not
    below the smallest one of the format. *)
Definition fits (prec emax : Z) (x : spec_float) : Prop :=
  match x with
  | S754_finite _ m e => Zpos (digits2_pos m) <= prec /\ emin prec emax <= e
  | _ => True
  end.

(** A well-formed finite binary64 number. *)
Definition finite64 (x : f64) : bool :=
  is_finite x && valid_binary 53 1024 x.

(** A finite number above zero. *)
Definition positive_finite (x : spec_float) : bool :=
  match x with S754_finite false _ _ => true | _ => false end.

(** [0.0 <= x], as IEEE comparison: false on NaN. *)
Definition nonneg (x : spec_float) : bool := SFleb (S754_zero false) x.

(** [lo <= x <= hi]. *)
Definition in_range (lo hi x : spec_float) : bool := SFleb lo x && SFleb x hi.

(** Python's builtin [min(a, b)]: [b] only when [b < a]. *)
Definition py_min (a b : spec_float) : spec_float :=
  if SFltb b a then b else a.

(** ** NumPy *)

Section Numpy.
Variables prec emax : Z.

(** *** Sums

    A float [add.reduce] starts from the identity [0.0] and adds to it what
    the inner loop of the addition returns.  Along a contiguous axis that
    loop is NumPy's pairwise summation: fewer than eight elements are added
    in index order, starting from [-0.0]; up to 128 elements are added into
    eight accumulators, which are combined as a balanced tree before the
    remaining elements are added in index order; a longer array is split in
    two, the first part a multiple of eight, and the sums of the parts are
    added. *)

(** The loop over blocks of eight, then the tree and the tail. *)
Fixpoint unrolled_sum (r0 r1 r2 r3 r4 r5 r6 r7 : spec_float)
  (rest : list spec_float) {struct rest} : spec_float :=
  match rest with
  | a0 :: a1 :: a2 :: a3 :: a4 :: a5 :: a6 :: a7 :: rest' =>
      unrolled_sum (SFadd prec emax r0 a0) (SFadd prec emax r1 a1)
                   (SFadd prec emax r2 a2) (SFadd prec emax r3 a3)
                   (SFadd prec emax r4 a4) (SFadd prec emax r5 a5)
                   (SFadd prec emax r6 a6) (SFadd prec emax r7 a7) rest'
  | _ =>
      fold_left (SFadd prec emax) rest
        (SFadd prec emax
           (SFadd prec emax (SFadd prec emax r0 r1) (SFadd prec emax r2 r3))
           (SFadd prec emax (SFadd prec emax r4 r5) (SFadd prec emax r6 r7)))
  end.

(** The sum of at most 128 elements. *)
Definition block_sum (l : list spec_float) : spec_float :=
  match l with
  | a0 :: a1 :: a2 :: a3 :: a4 :: a5 :: a6 :: a7 :: rest =>
      unrolled_sum a0 a1 a2 a3 a4 a5 a6 a7 rest
  | _ => fold_left (SFadd prec emax) l (S754_zero true)
  end.

(** [n2 = n / 2; n2 -= n2 % 8] *)
Definition split_point (n : nat) : nat := (n / 2 - (n / 2) mod 8)%nat.

(** The recursion halves the array, so a depth of [length l] is never
    exhausted (see [pairwise_sum_depth]). *)
Fixpoint pairwise_sum (depth : nat) (l : list spec_float) : spec_float :=
  match depth with
  | O => block_sum l
  | S d =>
      if (length l <=? 128)%nat then block_sum l
      else
        let n2 := split_point (length l) in
        SFadd prec emax (pairwise_sum d (firstn n2 l)) (pairwise_sum d (skipn n2 l))
  end.

(** [np.sum] over a one-dimensional array, or over all axes of a contiguous
    one. *)
Definition np_sum (l : list spec_float) : spec_float :=
  SFadd prec emax (S754_zero false) (pairwise_sum (length l) l).

Definition np_size (l : list spec_float) : spec_float :=
  of_Z prec emax (Z.of_nat (length l)).

(** [np.mean]: the sum divided by the number of elements (NaN when empty). *)
Definition np_mean (l : list spec_float) : spec_float :=
  SFdiv prec emax (np_sum l) (np_size l).

(** [np.var]: the mean of the squared deviations from the mean. *)
Definition np_var (l : list spec_float) : spec_float :=
  let m := np_mean l in
  np_mean (map (fun x => let d := SFsub prec emax x m in SFmul prec emax d d) l).

Definition np_std (l : list spec_float) : spec_float :=
  SFsqrt prec emax (np_var l).

(** A reduction over the leading axes that keeps the last axis ([axis=0]
    of a matrix, [axis=(0, 1)] of an image) adds whole rows: every element
    of the result accumulates its column in index order from [0.0]. *)
Definition np_sum_axis (l : list spec_float) : spec_float :=
  fold_left (SFadd prec emax) l (S754_zero false).

Definition np_mean_axis (l : list spec_float) : spec_float :=
  SFdiv prec emax (np_sum_axis l) (np_size l).

Definition np_var_axis (l : list spec_float) : spec_float :=
  let m := np_mean_axis l in
  np_mean_axis (map (fun x => let d := SFsub prec emax x m in SFmul prec emax d d) l).

Definition np_std_axis (l : list spec_float) : spec_float :=
  SFsqrt prec emax (np_var_axis l).

(** [np.minimum], [np.maximum]: NaN wins. *)
Definition np_minimum (a b : spec_float) : spec_float :=
  if SFleb a b || is_nan a then a else b.

Definition np_maximum (a b : spec_float) : spec_float :=
  if SFleb b a || is_nan a then a else b.

(** [np.min], [np.max]: a zero-size array has no minimum. *)
Definition np_min (l : list spec_float) : outcome spec_float :=
  match l with
  | [] => Raise (Exn "ValueError"
            "zero-size array to reduction operation minimum which has no identity")
  | x :: t => Return (fold_left np_minimum t x)
  end.

Definition np_max (l : list spec_float) : outcome spec_float :=
  match l with
  | [] => Raise (Exn "ValueError"
            "zero-size array to reduction operation maximum which has no identity")
  | x :: t => Return (fold_left np_maximum t x)
  end.

(** [np.clip(x, lo, hi)].  With bounds that are numbers the loop is
    [if (x < lo) x = lo; if (x > hi) x = hi;], which leaves a NaN and a
    value equal to a bound as they are; with a NaN bound it is
    [min(max(x, lo), hi)] with the NaN of the first argument winning. *)
Definition clip_max (a b : spec_float) : spec_float :=
  if is_nan a then a else if SFltb b a then a else b.

Definition clip_min (a b : spec_float) : spec_float :=
  if is_nan a then a else if SFltb a b then a else b.

Definition np_clip (x lo hi : spec_float) : spec_float :=
  if is_nan lo || is_nan hi then clip_min (clip_max x lo) hi
  else
    let x := if SFltb x lo then lo else x in
    if SFltb hi x then hi else x.

(** [a * b] on one-dimensional arrays, with broadcasting of a length-one
    operand. *)
Definition np_multiply (a b : list spec_float) : outcome (list spec_float) :=
  if Nat.eqb (length a) (length b)
  then Return (map (fun p => SFmul prec emax (fst p) (snd p)) (combine a b))
  else match a, b with
       | [x], _ => Return (map (SFmul prec emax x) b)
       | _, [y] => Return (map (fun x => SFmul prec emax x y) a)
       | _, _ => Raise (Exn "ValueError" "operands could not be broadcast together")
       end.

End Numpy.

(** ** Images *)

(** An array of shape [(shape0, shape1, 3)], row-major. *)
Record image (A : Type) : Type := {
  shape0 : Z;
  shape1 : Z;
  pixels : list A
}.

Arguments shape0 {A} i.
Arguments shape1 {A} i.
Arguments pixels {A} i.

(** Three 8-bit channels, as [cv2.imread] decodes them. *)
Definition pixel8 : Type := (Z * Z * Z)%type.

(** Three binary32 channels. *)
Definition pixel : Type := (f32 * f32 * f32)%type.

Definition chan0 (p : pixel) : f32 := fst (fst p).
Definition chan1 (p : pixel) : f32 := snd (fst p).
Definition chan2 (p : pixel) : f32 := snd p.

Definition map_image {A B : Type} (f : A -> B) (img : image A) : image B :=
  {| shape0 := shape0 img; shape1 := shape1 img; pixels := map f (pixels img) |}.

(** [cv2.cvtColor(img, code)]: the conversion [conv] of every pixel; OpenCV
    asserts that the source is not empty. *)
Definition cvtColor {A B : Type} (conv : A -> B) (img : image A) : outcome (image B) :=
  match pixels img with
  | [] => Raise (Exn "cv2.error" "(-215:Assertion failed) !_src.empty() in function cvtColor")
  | _ :: _ => Return (map_image conv img)
  end.

(** [cv2.COLOR_BGR2RGB] *)
Definition bgr2rgb (p : pixel8) : pixel8 :=
  match p with (b, g, r) => (r, g, b) end.

(** A contour as the height proxy reads it: [cv2.contourArea] and the height
    of [cv2.boundingRect]. *)
Record contour : Type := {
  contourArea : f64;
  boundingRect_h : Z
}.

(** The regression backend [self.model]: a Keras model predicts a
    two-dimensional array, a scikit-learn regressor a one-dimensional one.
    The string is [type(self.model).__name__]. *)
Inductive backend : Type :=
| KerasModel (name : string)
    (predict : list (list f64) -> outcome (list (list f64)))
| SklearnModel (name : string)
    (predict : list (list f64) -> outcome (list f64)).

(** What the analyzer reaches outside itself. *)
Record world : Type := {
  (** [cv2.imread]: [None] when the file cannot be read or decoded *)
  imread : string -> option (image pixel8);
  (** [cv2.resize(img, (w, h))] *)
  resize : image pixel8 -> Z -> Z -> outcome (image pixel8);
  (** the per-pixel conversions behind [cv2.COLOR_RGB2HSV], [cv2.COLOR_RGB2LAB] *)
  rgb2hsv : pixel -> pixel;
  rgb2lab : pixel -> pixel;
  (** [cv2.inRange] at one pixel, for the bounds given *)
  inRange : pixel -> Z * Z * Z -> Z * Z * Z -> bool;
  (** grayscale conversion, [cv2.Canny(gray, 50, 150)] and
      [cv2.findContours(edges, RETR_EXTERNAL, CHAIN_APPROX_SIMPLE)] *)
  findContours : image pixel -> outcome (list contour);
  (** [datetime.now().isoformat()] at the n-th reading of the clock *)
  now : nat -> string
}.

(** ** BiomassAnalyzer *)

Definition feature_names : list string :=
  [ "ndvi_mean"; "ndvi_std"; "ndvi_min"; "ndvi_max";
    "height_mean"; "height_std"; "height_min"; "height_max";
    "density_score"; "canopy_cover"; "species_diversity";
    "moisture_index"; "temperature"; "salinity" ]%string.

Definition zero64 : f64 := S754_zero false.

(** *** preprocess_image *)

(** [image_resized.astype(np.float32) / 255.0] at one channel. *)
Definition normalize_channel (v : Z) : f32 := div32 (of_Z32 v) (of_Z32 255).

Definition normalize_pixel (p : pixel8) : pixel :=
  match p with (r, g, b) => (normalize_channel r, normalize_channel g, normalize_channel b) end.

Definition preprocess_image (W : world) (image_path : string) : outcome (image pixel) :=
  match imread W image_path with
  | None => Raise (Exn "ValueError" ("Could not load image from " ++ image_path))
  | Some img =>
      image_rgb <- cvtColor bgr2rgb img ;;
      image_resized <- resize W image_rgb 512 512 ;;
      Return (map_image normalize_pixel image_resized)
  end.

(** *** calculate_ndvi *)

Record ndvi_stats : Type := {
  ndvi_mean : f64;
  ndvi_std : f64;
  ndvi_min : f64;
  ndvi_max : f64
}.

(** [green + 6 * red - 7.5 * blue + 1] *)
Definition evi_denominator (p : pixel) : f32 :=
  let red := chan0 p in
  let green := chan1 p in
  let blue := chan2 p in
  add32 (sub32 (add32 green (mul32 (of_Z32 6) red))
               (mul32 (decimal32 75 10) blue))
        (of_Z32 1).

(** [2.5 * (green - red) / (green + 6 * red - 7.5 * blue + 1)] *)
Definition evi_pixel (p : pixel) : f32 :=
  let red := chan0 p in
  let green := chan1 p in
  div32 (mul32 (decimal32 25 10) (sub32 green red)) (evi_denominator p).

Definition ndvi_fallback : ndvi_stats :=
  {| ndvi_mean := zero64; ndvi_std := zero64; ndvi_min := zero64; ndvi_max := zero64 |}.

Definition calculate_ndvi (img : image pixel) : ndvi_stats :=
  try_except
    (let evi := map evi_pixel (pixels img) in
     let mean := to_f64 (np_mean 24 128 evi) in
     let std := to_f64 (np_std 24 128 evi) in
     lo <- np_min evi ;;
     hi <- np_max evi ;;
     Return {| ndvi_mean := mean; ndvi_std := std;
               ndvi_min := to_f64 lo; ndvi_max := to_f64 hi |})
    (fun _ => ndvi_fallback).

(** *** estimate_vegetation_height *)

Record height_stats : Type := {
  height_mean : f64;
  height_std : f64;
  height_min : f64;
  height_max : f64
}.

Definition height_fallback : height_stats :=
  {| height_mean := zero64; height_std := zero64;
     height_min := zero64; height_max := zero64 |}.

Definition estimate_vegetation_height (W : world) (img : image pixel) : height_stats :=
  try_except
    (contours <- findContours W img ;;
     let kept := filter (fun c => SFltb (of_Z64 100) (contourArea c)) contours in
     let heights := map boundingRect_h kept in
     let heights := match heights with [] => [0] | _ :: _ => heights end in
     let hs := map of_Z64 heights in
     lo <- np_min hs ;;
     hi <- np_max hs ;;
     Return {| height_mean := np_mean 53 1024 hs; height_std := np_std 53 1024 hs;
               height_min := lo; height_max := hi |})
    (fun _ => height_fallback).

(** *** calculate_canopy_cover *)

Definition lower_green : Z * Z * Z := (35, 40, 40).
Definition upper_green : Z * Z * Z := (85, 255, 255).

(** [(vegetation_pixels / total_pixels) * 100] *)
Definition canopy_of_count (vegetation_pixels total_pixels : Z) : f64 :=
  mul64 (div64 (of_Z64 vegetation_pixels) (of_Z64 total_pixels)) (of_Z64 100).

Definition calculate_canopy_cover (W : world) (img : image pixel) : f64 :=
  try_except
    (hsv <- cvtColor (rgb2hsv W) img ;;
     let mask := map (fun p => inRange W p lower_green upper_green) (pixels hsv) in
     let total_pixels := shape0 hsv * shape1 hsv in
     let vegetation_pixels := Z.of_nat (length (filter (fun b : bool => b) mask)) in
     Return (canopy_of_count vegetation_pixels total_pixels))
    (fun _ => zero64).

(** *** estimate_species_diversity *)

(** [np.var(lab, axis=(0, 1))]: one variance per channel. *)
Definition color_variance (lab : image pixel) : list f32 :=
  [ np_var_axis 24 128 (map chan0 (pixels lab));
    np_var_axis 24 128 (map chan1 (pixels lab));
    np_var_axis 24 128 (map chan2 (pixels lab)) ].

(** [np.mean(color_variance) / 255.0], a binary32 scalar. *)
Definition diversity_score (lab : image pixel) : f32 :=
  div32 (np_mean 24 128 (color_variance lab)) (of_Z32 255).

Definition estimate_species_diversity (W : world) (img : image pixel) : f64 :=
  try_except
    (lab <- cvtColor (rgb2lab W) img ;;
     Return (to_f64 (np_clip (diversity_score lab) (of_Z32 0) (of_Z32 1))))
    (fun _ => zero64).

(** *** extract_features *)

(** A metadata dictionary; [None] when the caller gives none. *)
Definition metadata : Type := option (list (string * f64)).

Fixpoint dict_get (d : list (string * f64)) (key : string) (default : f64) : f64 :=
  match d with
  | [] => default
  | (k, v) :: rest => if String.eqb k key then v else dict_get rest key default
  end.

(** [metadata.get(key, default) if metadata else default] *)
Definition metadata_get (md : metadata) (key : string) (default : f64) : f64 :=
  match md with
  | Some (kv :: rest) => dict_get (kv :: rest) key default
  | _ => default
  end.

Definition default_moisture_index : f64 := Eval vm_compute in decimal64 7 10.
Definition default_temperature : f64 := Eval vm_compute in of_Z64 25.
Definition default_salinity : f64 := Eval vm_compute in of_Z64 35.

(** The [(1, 14)] feature array. *)
Definition extract_features (W : world) (img : image pixel) (md : metadata)
  : list (list f64) :=
  let ndvi := calculate_ndvi img in
  let height := estimate_vegetation_height W img in
  let canopy_cover := calculate_canopy_cover W img in
  let species_diversity := estimate_species_diversity W img in
  let density_score := div64 canopy_cover (of_Z64 100) in
  let moisture_index := metadata_get md "moisture_index" default_moisture_index in
  let temperature := metadata_get md "temperature" default_temperature in
  let salinity := metadata_get md "salinity" default_salinity in
  [ [ ndvi_mean ndvi; ndvi_std ndvi; ndvi_min ndvi; ndvi_max ndvi;
      height_mean height; height_std height; height_min height; height_max height;
      density_score; canopy_cover; species_diversity;
      moisture_index; temperature; salinity ] ].

(** *** StandardScaler

    scikit-learn's [StandardScaler.fit_transform], from its documented
    behaviour: the input must not contain an infinity; NaNs are treated as
    missing values, disregarded in [fit] and maintained in [transform]; each
    column is centred on its mean and divided by its standard deviation, a
    standard deviation of zero being replaced by one.  [fit] discards what an
    earlier call learnt, so the scaler carries no state from call to call. *)

Definition column (X : list (list f64)) (j : nat) : list f64 :=
  map (fun row => nth j row S754_nan) X.

Definition present (col : list f64) : list f64 :=
  filter (fun x => negb (is_nan x)) col.

Definition scaler_mean (col : list f64) : f64 := np_mean_axis 53 1024 (present col).

Definition scaler_scale (col : list f64) : f64 :=
  let s := np_std_axis 53 1024 (present col) in
  if SFeqb s zero64 then of_Z64 1 else s.

Definition standardize (col : list f64) (x : f64) : f64 :=
  div64 (sub64 x (scaler_mean col)) (scaler_scale col).

Definition transform_row (X : list (list f64)) (row : list f64) : list f64 :=
  map (fun jx => standardize (column X (fst jx)) (snd jx))
      (combine (seq 0 (length row)) row).

Definition fit_transform (X : list (list f64)) : outcome (list (list f64)) :=
  match X with
  | [] => Raise (Exn "ValueError" "Found array with 0 sample(s)")
  | _ :: _ =>
      if existsb (existsb is_inf) X
      then Raise (Exn "ValueError" "Input X contains infinity or a value too large")
      else Return (map (transform_row X) X)
  end.

(** *** _calculate_fallback_biomass *)

Definition weights : list f64 := Eval vm_compute in
  [ decimal64 3 10; decimal64 1 10; decimal64 1 10; decimal64 2 10;
    decimal64 2 10; decimal64 1 10; decimal64 1 10; decimal64 2 10;
    decimal64 3 10; decimal64 4 10; decimal64 2 10; decimal64 1 10;
    decimal64 5 100; decimal64 5 100 ].

Definition biomass_lo : f64 := Eval vm_compute in decimal64 1 10.
Definition biomass_hi : f64 := Eval vm_compute in of_Z64 50.

Definition _calculate_fallback_biomass (features : list f64) : outcome f64 :=
  products <- np_multiply 53 1024 features weights ;;
  let biomass := np_sum 53 1024 products in
  Return (np_clip biomass biomass_lo biomass_hi).

(** *** _calculate_confidence *)

Definition half : f64 := Eval vm_compute in decimal64 5 10.
Definition one64 : f64 := Eval vm_compute in of_Z64 1.
Definition three64 : f64 := Eval vm_compute in of_Z64 3.
Definition hundred64 : f64 := Eval vm_compute in of_Z64 100.

Definition _calculate_confidence (features : list f64) : f64 :=
  try_except
    (f0 <- getitem features 0 ;;
     let ndvi_quality := py_min (div64 f0 half) one64 in
     f4 <- getitem features 4 ;;
     let height_quality := py_min (div64 f4 hundred64) one64 in
     f9 <- getitem features 9 ;;
     let canopy_quality := div64 f9 hundred64 in
     let confidence :=
       div64 (add64 (add64 ndvi_quality height_quality) canopy_quality) three64 in
     Return (np_clip confidence zero64 one64))
    (fun _ => half).

(** *** estimate_biomass *)

Definition carbon_fraction : f64 := Eval vm_compute in decimal64 47 100.
Definition co2_per_carbon : f64 := Eval vm_compute in decimal64 367 100.

Record analysis_metadata_t : Type := {
  model_type : string;
  feature_count : nat;
  image_resolution : string
}.

Record analysis : Type := {
  image_path : string;
  timestamp : string;
  biomass_estimate_kg_m2 : f64;
  carbon_content_kg_m2 : f64;
  co2_equivalent_kg_m2 : f64;
  features : list (string * f64);
  confidence_score : f64;
  analysis_metadata : analysis_metadata_t
}.

(** The dictionary [estimate_biomass] returns: an analysis, or the
    error-tagged [{'error', 'image_path', 'timestamp'}]. *)
Inductive result : Type :=
| Analysis (a : analysis)
| ErrorResult (error : string) (path : string) (stamp : string).

(** ['error' in result] *)
Definition has_error (r : result) : bool :=
  match r with Analysis _ => false | ErrorResult _ _ _ => true end.

Definition result_path (r : result) : string :=
  match r with Analysis a => image_path a | ErrorResult _ p _ => p end.

Definition result_stamp (r : result) : string :=
  match r with Analysis a => timestamp a | ErrorResult _ _ s => s end.

Definition decimal_of_Z (z : Z) : string :=
  NilZero.string_of_int (Z.to_int z).

Definition model_type_name (model : option backend) : string :=
  match model with
  | Some (KerasModel name _) => name
  | Some (SklearnModel name _) => name
  | None => "NoneType"%string
  end.

(** [self.model.predict(features_scaled)[0][0]], [...[0]], or the fallback
    on the unscaled [features[0]]. *)
Definition predict_biomass (model : option backend)
  (features features_scaled : list (list f64)) : outcome f64 :=
  match model with
  | Some (KerasModel _ predict) =>
      out <- predict features_scaled ;;
      row <- getitem out 0 ;;
      getitem row 0
  | Some (SklearnModel _ predict) =>
      out <- predict features_scaled ;;
      getitem out 0
  | None =>
      row <- getitem features 0 ;;
      _calculate_fallback_biomass row
  end.

(** The features, scaled as they reach the backend. *)
Definition scaled_features (W : world) (img : image pixel) (md : metadata)
  : outcome (list (list f64)) :=
  fit_transform (extract_features W img md).

(** The body of the [try] block; [t] is the number of clock readings so far. *)
Definition estimate_biomass_body (W : world) (model : option backend)
  (path : string) (md : metadata) (t : nat) : outcome analysis :=
  img <- preprocess_image W path ;;
  let features := extract_features W img md in
  features_scaled <- scaled_features W img md ;;
  biomass_prediction <- predict_biomass model features features_scaled ;;
  let carbon_content := mul64 biomass_prediction carbon_fraction in
  let co2_equivalent := mul64 carbon_content co2_per_carbon in
  row <- getitem features 0 ;;
  Return {| image_path := path;
            timestamp := now W t;
            biomass_estimate_kg_m2 := biomass_prediction;
            carbon_content_kg_m2 := carbon_content;
            co2_equivalent_kg_m2 := co2_equivalent;
            features := combine feature_names row;
            confidence_score := _calculate_confidence row;
            analysis_metadata :=
              {| model_type := model_type_name model;
                 feature_count := length feature_names;
                 image_resolution :=
                   (decimal_of_Z (shape1 img) ++ "x" ++ decimal_of_Z (shape0 img))%string |}
         |}.

(** Returns the dictionary and the clock after its one reading. *)
Definition estimate_biomass (W : world) (model : option backend)
  (path : string) (md : metadata) (t : nat) : result * nat :=
  (try_except
     (a <- estimate_biomass_body W model path md t ;; Return (Analysis a))
     (fun e => ErrorResult (str e) path (now W t)),
   S t).

(** *** analyze_multiple_images *)

Module Summary.
Record t : Type := {
  mean : f64;
  std : f64;
  min : f64;
  max : f64;
  total : f64
}.
End Summary.

Module ConfidenceSummary.
Record t : Type := {
  mean : f64;
  std : f64
}.
End ConfidenceSummary.

Record aggregate : Type := {
  total_images : nat;
  valid_analyses : nat;
  biomass_summary : Summary.t;
  carbon_summary : Summary.t;
  co2_summary : Summary.t;
  confidence_summary : ConfidenceSummary.t;
  individual_results : list result;
  aggregate_timestamp : string
}.

Inductive batch_result : Type :=
| Aggregated (a : aggregate)
| BatchError (error : string).

(** The loop over [image_paths]: a result is appended unless it is
    error-tagged. *)
Fixpoint analyze_loop (W : world) (model : option backend) (md : metadata)
  (image_paths : list string) (results : list result) (t : nat)
  : list result * nat :=
  match image_paths with
  | [] => (results, t)
  | path :: rest =>
      let '(r, t') := estimate_biomass W model path md t in
      analyze_loop W model md rest
        (if has_error r then results else results ++ [r]) t'
  end.

Definition summarize (values : list f64) : outcome Summary.t :=
  lo <- np_min values ;;
  hi <- np_max values ;;
  Return {| Summary.mean := np_mean 53 1024 values;
            Summary.std := np_std 53 1024 values;
            Summary.min := lo;
            Summary.max := hi;
            Summary.total := np_sum 53 1024 values |}.

(** [r[key]] on a result dictionary: the error-tagged one has no such key. *)
Definition field (get : analysis -> f64) (r : result) : outcome f64 :=
  match r with
  | Analysis a => Return (get a)
  | ErrorResult _ _ _ => Raise (Exn "KeyError" "missing key")
  end.

Fixpoint collect (get : analysis -> f64) (rs : list result) : outcome (list f64) :=
  match rs with
  | [] => Return []
  | r :: rest => v <- field get r ;; vs <- collect get rest ;; Return (v :: vs)
  end.

Definition analyze_multiple_images (W : world) (model : option backend)
  (image_paths : list string) (md : metadata) (t : nat) : batch_result :=
  try_except
    (let '(results, t') := analyze_loop W model md image_paths [] t in
     match results with
     | [] => Return (BatchError "No valid analysis results")
     | _ :: _ =>
         biomass_values <- collect biomass_estimate_kg_m2 results ;;
         carbon_values <- collect carbon_content_kg_m2 results ;;
         co2_values <- collect co2_equivalent_kg_m2 results ;;
         confidence_values <- collect confidence_score results ;;
         biomass <- summarize biomass_values ;;
         carbon <- summarize carbon_values ;;
         co2 <- summarize co2_values ;;
         Return (Aggregated
           {| total_images := length image_paths;
              valid_analyses := length results;
              biomass_summary := biomass;
              carbon_summary := carbon;
              co2_summary := co2;
              confidence_summary :=
                {| ConfidenceSummary.mean := np_mean 53 1024 confidence_values;
                   ConfidenceSummary.std := np_std 53 1024 confidence_values |};
              individual_results := results;
              aggregate_timestamp := now W t' |})
     end)
    (fun e => BatchError (str e)).

(** ** Reference points for the statements *)

(** The per-image results of a batch, one for every path, in input order:
    what the successive calls of [estimate_biomass] return. *)
Fixpoint per_image_results (W : world) (model : option backend) (md : metadata)
  (image_paths : list string) (t : nat) : list result :=
  match image_paths with
  | [] => []
  | path :: rest =>
      fst (estimate_biomass W model path md t)
      :: per_image_results W model md rest (S t)
  end.

(** The results that are not error-tagged. *)
Definition valid_results (rs : list result) : list result :=
  filter (fun r => negb (has_error r)) rs.

Definition analyses_of (rs : list result) : list analysis :=
  flat_map (fun r => match r with Analysis a => [a] | ErrorResult _ _ _ => [] end) rs.

(** An image of the canonical normalized size: 512 by 512 pixels, every
    channel a finite number between 0 and 1. *)
Definition unit_channel (x : f32) : bool :=
  is_finite x && in_range (of_Z32 0) (of_Z32 1) x.

Definition unit_pixel (p : pixel) : bool :=
  unit_channel (chan0 p) && unit_channel (chan1 p) && unit_channel (chan2 p).

Definition finite_pixel (p : pixel) : bool :=
  is_finite (chan0 p) && is_finite (chan1 p) && is_finite (chan2 p).

Definition canonical (img : image pixel) : Prop :=
  shape0 img = 512 /\ shape1 img = 512 /\
  Z.of_nat (length (pixels img)) = 512 * 512 /\
  forallb unit_pixel (pixels img) = true.

(** [cv2.inRange] at one pixel of a float image: every channel lies
    between its two bounds, the bounds included. *)
Definition cv2_inRange (p : pixel) (lower upper : Z * Z * Z) : bool :=
  in_range (of_Z32 (fst (fst lower))) (of_Z32 (fst (fst upper))) (chan0 p)
  && in_range (of_Z32 (snd (fst lower))) (of_Z32 (snd (fst upper))) (chan1 p)
  && in_range (of_Z32 (snd lower)) (of_Z32 (snd upper)) (chan2 p).

(** ** A small world for the examples

    Three decodable files and a fitted regressor.  The resize keeps the
    decoded 2 by 2 canvas and the colour conversions are the identity, so
    that the pipeline can be evaluated on it.  [cv2.Canny] accepts 8-bit
    images only, so the contour search on the float image raises. *)

Definition site_a : image pixel8 :=
  {| shape0 := 2; shape1 := 2;
     pixels := [ (30, 120, 40); (25, 140, 60); (90, 100, 80); (200, 210, 190) ] |}.

Definition site_b : image pixel8 :=
  {| shape0 := 2; shape1 := 2;
     pixels := [ (40, 90, 20); (35, 150, 50); (60, 70, 65); (10, 30, 12) ] |}.

(** The second pixel is the dark blue B=34, G=0, R=0. *)
Definition glint : image pixel8 :=
  {| shape0 := 2; shape1 := 2;
     pixels := [ (30, 120, 40); (34, 0, 0); (90, 100, 80); (200, 210, 190) ] |}.

Definition example_world : world :=
  {| imread := fun path =>
       if String.eqb path "site_a.jpg" then Some site_a
       else if String.eqb path "site_b.jpg" then Some site_b
       else if String.eqb path "glint.jpg" then Some glint
       else None;
     resize := fun img _ _ => Return img;
     rgb2hsv := fun p => p;
     rgb2lab := fun p => p;
     inRange := cv2_inRange;
     findContours := fun _ =>
       Raise (Exn "cv2.error"
                "(-215:Assertion failed) _src.depth() == CV_8U in function Canny");
     now := fun n => ("T" ++ decimal_of_Z (Z.of_nat n))%string |}.

Definition example_model : option backend :=
  Some (SklearnModel "RandomForestRegressor" (fun _ => Return [of_Z64 12])).

(** [glint] as [preprocess_image] hands it on. *)
Definition glint_normalized : image pixel :=
  map_image normalize_pixel (map_image bgr2rgb glint).

Definition site_a_normalized : image pixel :=
  map_image normalize_pixel (map_image bgr2rgb site_a).

(** A uniform mid-grey image of the canonical size. *)
Definition grey_pixel : pixel :=
  (decimal32 5 10, decimal32 5 10, decimal32 5 10).

Definition grey_canvas : image pixel :=
  {| shape0 := 512; shape1 := 512;
     pixels := repeat grey_pixel (Z.to_nat (512 * 512)) |}.

(** ** Construction of the analyzer *)

(** Where a saved model comes from: [os.path.exists] and
    [keras.models.load_model], which gives a Keras model (its class name and
    its [predict]) or raises. *)
Record model_store : Type := {
  path_exists : string -> bool;
  load_keras : string ->
    outcome (string * (list (list f64) -> outcome (list (list f64))))
}.

(** [RandomForestRegressor(n_estimators=100, max_depth=10, random_state=42,
    n_jobs=-1)].  Nothing in the module fits it, and scikit-learn's
    [predict] on an estimator that was not fitted raises [NotFittedError]. *)
Definition _initialize_default_model : backend :=
  SklearnModel "RandomForestRegressor"
    (fun _ => Raise (Exn "NotFittedError"
       "This RandomForestRegressor instance is not fitted yet. Call 'fit' with appropriate arguments before using this estimator.")).

Definition load_model (S : model_store) (model_path : string) : backend :=
  try_except
    (m <- load_keras S model_path ;; Return (KerasModel (fst m) (snd m)))
    (fun _ => _initialize_default_model).

(** [BiomassAnalyzer(model_path)]: the value of [self.model] afterwards.
    [if model_path and os.path.exists(model_path)] is false for [None] and
    for the empty string. *)
Definition __init__ (S : model_store) (model_path : option string) : option backend :=
  match model_path with
  | Some p =>
      if negb (String.eqb p "") && path_exists S p
      then Some (load_model S p)
      else Some _initialize_default_model
  | None => Some _initialize_default_model
  end.

(** ** generate_report *)

Definition newline : string := String (Ascii.ascii_of_nat 10) EmptyString.

(** [sep.join(lines)] *)
Fixpoint join (sep : string) (lines : list string) : string :=
  match lines with
  | [] => EmptyString
  | [l] => l
  | l :: rest => (l ++ sep ++ join sep rest)%string
  end.

(** [c * n] for a one-character string. *)
Fixpoint times (c : Ascii.ascii) (n : nat) : string :=
  match n with
  | O => EmptyString
  | S n' => String c (times c n')
  end.

Definition banner : string := times (Ascii.ascii_of_nat 61) 60.

(** [num / den] rounded to the nearest integer, ties to even. *)
Definition round_half_even (num den : Z) : Z :=
  let q := num / den in
  let r := num mod den in
  match 2 * r ?= den with
  | Lt => q
  | Gt => q + 1
  | Eq => if Z.even q then q else q + 1
  end.

(** The magnitude [m * 2^e] in hundredths, correctly rounded. *)
Definition hundredths (m : positive) (e : Z) : Z :=
  match e with
  | Zneg p => round_half_even (Zpos m * 100) (2 ^ Zpos p)
  | _ => Zpos m * 100 * 2 ^ e
  end.

Definition two_digits (n : Z) : string :=
  if n <? 10 then ("0" ++ decimal_of_Z n)%string else decimal_of_Z n.

(** [f"{x:.2f}"] for a Python float: the exact value rounded to two
    decimals, ties to even; the sign is printed from the sign bit. *)
Definition format_2f (x : f64) : string :=
  match x with
  | S754_nan => "nan"%string
  | S754_infinity s => if s then "-inf"%string else "inf"%string
  | S754_zero s => if s then "-0.00"%string else "0.00"%string
  | S754_finite s m e =>
      let n := hundredths m e in
      ((if s then "-" else "") ++ decimal_of_Z (n / 100) ++ "." ++ two_digits (n mod 100))%string
  end.

(** The files a report can be written to: [open(path, 'w')] raises where
    the path cannot be opened for writing, and otherwise the text that is
    written replaces the content.  The report holds a character outside
    ASCII, so the encoding of text files is taken to be UTF-8. *)
Record filesystem : Type := {
  writable : string -> bool;
  files : list (string * string)
}.

Fixpoint lookup_file (fs : list (string * string)) (path : string) : option string :=
  match fs with
  | [] => None
  | (p, content) :: rest =>
      if String.eqb p path then Some content else lookup_file rest path
  end.

Definition read_file (fs : filesystem) (path : string) : option string :=
  lookup_file (files fs) path.

Definition write_file (fs : filesystem) (path content : string) : outcome filesystem :=
  if writable fs path
  then Return {| writable := writable fs; files := (path, content) :: files fs |}
  else Raise (Exn "OSError" ("[Errno 2] No such file or directory: " ++ path)).

(** The dictionary handed to [generate_report]: what [estimate_biomass] or
    [analyze_multiple_images] returned. *)
Inductive analysis_results : Type :=
| OfImage (r : result)
| OfBatch (b : batch_result).

Definition report_header (generated : string) : list string :=
  [ banner; "BLUE CARBON BIOMASS ANALYSIS REPORT"; banner;
    "Generated: " ++ generated; "" ]%string.

Definition multi_image_lines (a : aggregate) : list string :=
  [ "MULTI-IMAGE ANALYSIS SUMMARY";
    times (Ascii.ascii_of_nat 45) 30;
    "Total Images: " ++ decimal_of_Z (Z.of_nat (total_images a));
    "Valid Analyses: " ++ decimal_of_Z (Z.of_nat (valid_analyses a));
    "";
    "BIOMASS ESTIMATES (kg/m²)";
    "  Mean: " ++ format_2f (Summary.mean (biomass_summary a));
    "  Std Dev: " ++ format_2f (Summary.std (biomass_summary a));
    "  Range: " ++ format_2f (Summary.min (biomass_summary a)) ++ " - "
                ++ format_2f (Summary.max (biomass_summary a));
    "  Total: " ++ format_2f (Summary.total (biomass_summary a));
    "";
    "CARBON CONTENT (kg/m²)";
    "  Mean: " ++ format_2f (Summary.mean (carbon_summary a));
    "  Total: " ++ format_2f (Summary.total (carbon_summary a));
    "";
    "CO2 EQUIVALENT (kg/m²)";
    "  Mean: " ++ format_2f (Summary.mean (co2_summary a));
    "  Total: " ++ format_2f (Summary.total (co2_summary a));
    "" ]%string.

Definition single_image_lines (a : analysis) : list string :=
  [ "SINGLE IMAGE ANALYSIS";
    times (Ascii.ascii_of_nat 45) 25;
    "Image: " ++ image_path a;
    "Biomass: " ++ format_2f (biomass_estimate_kg_m2 a) ++ " kg/m²";
    "Carbon: " ++ format_2f (carbon_content_kg_m2 a) ++ " kg/m²";
    "CO2 Equivalent: " ++ format_2f (co2_equivalent_kg_m2 a) ++ " kg/m²";
    "Confidence: " ++ format_2f (confidence_score a);
    "" ]%string.

(** ['error' in analysis_results], with the value under the key. *)
Definition error_of (d : analysis_results) : option string :=
  match d with
  | OfImage (ErrorResult msg _ _) => Some msg
  | OfBatch (BatchError msg) => Some msg
  | _ => None
  end.

(** The lines after the header, by the shape of the dictionary: the key
    ['individual_results'] selects the multi-image branch. *)
Definition report_body (d : analysis_results) : list string :=
  match d with
  | OfBatch (Aggregated a) => multi_image_lines a
  | OfImage (Analysis a) => single_image_lines a
  | _ => []
  end.

(** [generated] is [datetime.now().strftime('%Y-%m-%d %H:%M:%S')] at the
    call; the result is the returned string and the files afterwards. *)
Definition generate_report (generated : string) (d : analysis_results)
  (output_path : option string) (fs : filesystem) : string * filesystem :=
  try_except
    (let report := report_header generated in
     match error_of d with
     | Some msg => Return (join newline (report ++ [("ERROR: " ++ msg)%string]), fs)
     | None =>
         let report := report ++ report_body d ++ [banner] in
         let report_content := join newline report in
         match output_path with
         | Some p =>
             if String.eqb p "" then Return (report_content, fs)
             else fs' <- write_file fs p report_content ;;
                  Return (report_content, fs')
         | None => Return (report_content, fs)
         end
     end)
    (fun e => (("Error generating report: " ++ str e)%string, fs)).

(** ** main *)

(** What [main] prints and the files afterwards; [t] is the clock and
    [generated] the time stamp of the report. *)
Definition main (W : world) (S : model_store) (generated : string)
  (t : nat) (fs : filesystem) : string * filesystem :=
  let analyzer := __init__ S None in
  let image_path := "sample_drone_image.jpg"%string in
  let md : metadata :=
    Some [ ("temperature"%string, decimal64 285 10);
           ("salinity"%string, of_Z64 32);
           ("moisture_index"%string, decimal64 8 10) ] in
  if path_exists S image_path
  then
    let results := fst (estimate_biomass W analyzer image_path md t) in
    generate_report generated (OfImage results) (Some "biomass_report.txt"%string) fs
  else
    (("Sample image " ++ image_path
      ++ " not found. Please provide a valid image path.")%string, fs).

(** A feature that is not the negative zero. *)
Definition not_negative_zero (x : f64) : bool :=
  match x with S754_zero true => false | _ => true end.

(** A store without saved models and a file system with one writable
    directory, for the examples. *)
Definition example_store : model_store :=
  {| path_exists := fun p => String.eqb p "sample_drone_image.jpg";
     load_keras := fun _ => Raise (Exn "OSError" "No file or directory found") |}.

Definition example_fs : filesystem :=
  {| writable := fun p => String.eqb p "biomass_report.txt" || String.eqb p "out.txt";
     files := [ ("notes.txt", "keep")%string ] |}.

(** ** Further reference points *)

(** A channel as [cv2.imread] and [cv2.resize] give it: an unsigned byte. *)
Definition uint8 (v : Z) : bool := (0 <=? v) && (v <=? 255).

Definition uint8_pixel (p : pixel8) : bool :=
  match p with (a, b, c) => uint8 a && uint8 b && uint8 c end.

(** A well-formed finite number other than the negative zero. *)
Definition ordinary (x : f64) : bool := finite64 x && not_negative_zero x.

(** [l] is [m] with some elements left out, the order kept. *)
Inductive subsequence {A : Type} : list A -> list A -> Prop :=
| sub_nil : subsequence [] []
| sub_skip x l m : subsequence l m -> subsequence l (x :: m)
| sub_keep x l m : subsequence l m -> subsequence (x :: l) (x :: m).

(** [above_threshold c] is the test [cv2.contourArea(contour) > 100]. *)
Definition above_threshold (c : contour) : bool :=
  SFltb (of_Z64 100) (contourArea c).

(** The example world with a resize that fills the requested canvas with
    the first pixel of its input. *)
Definition canvas_world : world :=
  {| imread := imread example_world;
     resize := fun img w h =>
       Return {| shape0 := h; shape1 := w;
                 pixels := repeat (hd (0, 0, 0) (pixels img)) (Z.to_nat (w * h)) |};
     rgb2hsv := rgb2hsv example_world;
     rgb2lab := rgb2lab example_world;
     inRange := inRange example_world;
     findContours := findContours example_world;
     now := now example_world |}.

(** The example world with a scene whose only contour has the area 100. *)
Definition quiet_world : world :=
  {| imread := imread example_world;
     resize := resize example_world;
     rgb2hsv := rgb2hsv example_world;
     rgb2lab := rgb2lab example_world;
     inRange := inRange example_world;
     findContours := fun _ =>
       Return [ {| contourArea := of_Z64 100; boundingRect_h := 40 |} ];
     now := now example_world |}.

(** A backend whose prediction depends on the row it is given. *)
Definition linear_backend : backend :=
  SklearnModel "LinearRegression"
    (fun X => Return (map (fun row => add64 (np_sum 53 1024 row) (of_Z64 7)) X)).

(** The features the confidence is computed from: [features[0]],
    [features[4]] and [features[9]], by their names. *)
Definition quality_feature (name : string) : bool :=
  String.eqb name "ndvi_mean" || String.eqb name "height_mean"
  || String.eqb name "canopy_cover".

(* ================================================================== *)
(** * Part II. Floating-point arithmetic                                *)
(* ================================================================== *)

(** ** Digits and shifts *)

Lemma digits2_pos_size p : digits2_pos p = Pos.size p.
Proof. induction p; simpl; congruence. Qed.

Lemma Zdigits2_nonneg m : 0 <= Zdigits2 m.
Proof. destruct m; simpl; lia. Qed.

Lemma Zdigits2_gt m : 0 <= m -> m < 2 ^ Zdigits2 m.
Proof.
  destruct m as [|p|p]; simpl; intros H; try lia.
  rewrite digits2_pos_size.
  pose proof (Pos.size_gt p) as G.
  apply Pos2Z.pos_lt_pos in G. rewrite Pos2Z.inj_pow in G. exact G.
Qed.

Lemma Zdigits2_le_bound m k : 0 <= k -> 0 <= m < 2 ^ k -> Zdigits2 m <= k.
Proof.
  intros Hk [H0 H].
  destruct m as [|p|p]; simpl; try lia.
  rewrite digits2_pos_size.
  pose proof (Pos.size_le p) as G.
  apply Pos2Z.pos_le_pos in G. rewrite Pos2Z.inj_pow in G.
  destruct (Z_le_gt_dec (Zpos (Pos.size p)) k) as [L|L]; [exact L|exfalso].
  assert (2 ^ (k + 1) <= 2 ^ Zpos (Pos.size p)) by (apply Z.pow_le_mono_r; lia).
  rewrite Z.pow_add_r in H1 by lia.
  change (Zpos p~0) with (2 * Zpos p) in G. lia.
Qed.

Lemma Zdigits2_ge_pow m : 0 < m -> 2 ^ (Zdigits2 m - 1) <= m.
Proof.
  destruct m as [|p|p]; intros H; try lia. cbn [Zdigits2].
  rewrite digits2_pos_size.
  pose proof (Pos.size_le p) as G.
  apply Pos2Z.pos_le_pos in G. rewrite Pos2Z.inj_pow in G.
  change (Zpos p~0) with (2 * Zpos p) in G.
  set (d := Zpos (Pos.size p)) in *.
  assert (E : 2 ^ d = 2 * 2 ^ (d - 1)).
  { rewrite <- Z.pow_succ_r by lia. f_equal. lia. }
  lia.
Qed.

Lemma size_lower q k : 0 <= k -> 2 ^ k <= Zpos q -> k + 1 <= Zpos (Pos.size q).
Proof.
  intros Hk H. pose proof (Zdigits2_gt (Zpos q) ltac:(lia)) as G.
  cbn [Zdigits2] in G. rewrite digits2_pos_size in G.
  destruct (Z_le_gt_dec (k + 1) (Zpos (Pos.size q))) as [L|L]; [exact L|exfalso].
  assert (2 ^ Zpos (Pos.size q) <= 2 ^ k) by (apply Z.pow_le_mono_r; lia). lia.
Qed.

Lemma size_upper q k : 0 <= k -> Zpos q < 2 ^ k -> Zpos (Pos.size q) <= k.
Proof.
  intros Hk H. pose proof (Zdigits2_le_bound (Zpos q) k Hk ltac:(lia)) as G.
  cbn [Zdigits2] in G. rewrite digits2_pos_size in G. exact G.
Qed.

Lemma iter_pos_iter {A} (f : A -> A) n : forall x, iter_pos f n x = Pos.iter f x n.
Proof.
  induction n as [n IH|n IH|]; intros x; cbn [iter_pos Pos.iter]; rewrite ?IH.
  - rewrite <- !Pos.iter_swap. reflexivity.
  - reflexivity.
  - reflexivity.
Qed.

Lemma iter_shr_1_shiftl M p :
  iter_pos shr_1 p (Build_shr_record (Zpos (Pos.iter xO M p)) false false)
  = Build_shr_record (Zpos M) false false.
Proof.
  rewrite iter_pos_iter. revert M.
  induction p as [|p IH] using Pos.peano_ind; intros M.
  - reflexivity.
  - rewrite Pos.iter_succ, Pos.iter_succ_r, IH. reflexivity.
Qed.

Lemma digits2_pos_shiftl M p :
  Zpos (digits2_pos (Pos.iter xO M p)) = Zpos (digits2_pos M) + Zpos p.
Proof.
  induction p as [|p IH] using Pos.peano_ind.
  - cbn. lia.
  - rewrite Pos.iter_succ. cbn [digits2_pos]. lia.
Qed.

Lemma Zpos_shiftl a n : Zpos (Pos.shiftl a n) = Zpos a * 2 ^ Z.of_N n.
Proof.
  destruct n as [|p]; cbn [Pos.shiftl Z.of_N]; [lia|].
  induction p as [|p IH] using Pos.peano_ind.
  - cbn. lia.
  - rewrite Pos.iter_succ, Pos2Z.inj_xO, IH, Pos2Z.inj_succ, Z.pow_succ_r by lia. lia.
Qed.

Lemma size_shiftl a n : Zpos (Pos.size (Pos.shiftl a n)) = Zpos (Pos.size a) + Z.of_N n.
Proof.
  rewrite <- (digits2_pos_size (Pos.shiftl a n)), <- (digits2_pos_size a).
  destruct n as [|p]; cbn [Pos.shiftl Z.of_N]; [lia|]. apply digits2_pos_shiftl.
Qed.


Section Rounding.
Variables prec emax : Z.
Hypothesis prec_gt_1 : 1 < prec.


Lemma fexp_mono a b : a <= b -> fexp prec emax a <= fexp prec emax b.
Proof. unfold SpecFloat.fexp. lia. Qed.

Lemma fexp_ge_emin a : (emin prec emax) <= fexp prec emax a.
Proof. unfold SpecFloat.fexp. lia. Qed.

Lemma fexp_ge a : a - prec <= fexp prec emax a.
Proof. unfold SpecFloat.fexp. lia. Qed.

Lemma shr_1_nonneg mrs : 0 <= shr_m mrs -> 0 <= shr_m (shr_1 mrs).
Proof.
  destruct mrs as [m r s]; simpl.
  destruct m as [|[p|p|]|p]; simpl; lia.
Qed.

Lemma shr_1_digits mrs :
  0 <= shr_m mrs ->
  Zdigits2 (shr_m (shr_1 mrs)) = Z.max 0 (Zdigits2 (shr_m mrs) - 1).
Proof.
  destruct mrs as [m r s]; simpl.
  destruct m as [|[p|p|]|p]; intros H; cbn [shr_m Zdigits2 digits2_pos]; lia.
Qed.

Lemma iter_shr_1_spec n : forall mrs,
  0 <= shr_m mrs ->
  0 <= shr_m (iter_pos shr_1 n mrs) /\
  Zdigits2 (shr_m (iter_pos shr_1 n mrs)) = Z.max 0 (Zdigits2 (shr_m mrs) - Zpos n).
Proof.
  induction n as [n IH|n IH|]; intros mrs H; cbn [iter_pos].
  - pose proof (shr_1_nonneg mrs H) as H1.
    pose proof (shr_1_digits mrs H) as D1.
    destruct (IH _ H1) as [H2 D2]. destruct (IH _ H2) as [H3 D3].
    split; [exact H3|]. rewrite D3, D2, D1.
    pose proof (Zdigits2_nonneg (shr_m mrs)). lia.
  - destruct (IH _ H) as [H2 D2]. destruct (IH _ H2) as [H3 D3].
    split; [exact H3|]. rewrite D3, D2.
    pose proof (Zdigits2_nonneg (shr_m mrs)). lia.
  - split; [apply shr_1_nonneg, H|]. apply shr_1_digits, H.
Qed.

Lemma shr_record_of_loc_m m l : shr_m (shr_record_of_loc m l) = m.
Proof. destruct l as [|[]]; reflexivity. Qed.

(** One rounding shift: the exponent moves up to [fexp] of the magnitude and
    the mantissa loses as many digits. *)
Lemma shr_fexp_spec m e l :
  0 <= m ->
  let r := shr_fexp prec emax m e l in
  0 <= shr_m (fst r) /\
  snd r = Z.max e (fexp prec emax (Zdigits2 m + e)) /\
  Zdigits2 (shr_m (fst r)) = Z.max 0 (Zdigits2 m - (snd r - e)).
Proof.
  intros H. unfold shr_fexp, shr.
  pose proof (Zdigits2_nonneg m) as Hd.
  destruct (fexp prec emax (Zdigits2 m + e) - e) as [|p|p] eqn:E; cbn [fst snd];
    rewrite ?shr_record_of_loc_m.
  - repeat split; [exact H|lia|lia].
  - destruct (iter_shr_1_spec p (shr_record_of_loc m l)) as [H1 D1];
      [rewrite shr_record_of_loc_m; exact H|].
    rewrite shr_record_of_loc_m in D1.
    repeat split; [exact H1|lia|]. rewrite D1. f_equal. lia.
  - repeat split; [exact H|lia|lia].
Qed.

Lemma round_nearest_even_spec m l :
  0 <= m -> m <= round_nearest_even m l <= m + 1.
Proof.
  intros H. destruct l as [|[]]; simpl; try lia.
  destruct (Z.even m); lia.
Qed.

Lemma Zdigits2_succ_le m m' : 0 <= m -> m <= m' <= m + 1 -> Zdigits2 m' <= Zdigits2 m + 1.
Proof.
  intros H0 H. pose proof (Zdigits2_nonneg m) as Hd.
  apply Zdigits2_le_bound; [lia|].
  pose proof (Zdigits2_gt m H0) as G.
  rewrite Z.pow_add_r by lia. 
  assert (0 < 2 ^ Zdigits2 m) by (apply Z.pow_pos_nonneg; lia). lia.
Qed.

(** The shape of every rounded result: never NaN, the requested sign, a
    mantissa of at most [prec] digits, an exponent in range; infinity only
    when the magnitude of the input reaches past [emax]. *)
Lemma binary_round_aux_shape s m e l :
  0 <= m ->
  match binary_round_aux prec emax s m e l with
  | S754_nan => False
  | S754_zero s' => s' = s
  | S754_infinity s' =>
      s' = s /\ emax - prec < Z.max e (fexp prec emax (Zdigits2 m + e + 1))
  | S754_finite s' m3 e3 =>
      s' = s /\ Zpos (digits2_pos m3) <= prec /\
      (emin prec emax) <= e3 <= emax - prec /\
      e3 <= Z.max e (fexp prec emax (Zdigits2 m + e + 1))
  end.
Proof.
  intros H. unfold binary_round_aux.
  pose proof (shr_fexp_spec m e l H) as S1. cbv zeta in S1.
  destruct (shr_fexp prec emax m e l) as [mrs1 e1]. cbn [fst snd] in S1.
  destruct S1 as (N1 & E1 & D1).
  pose proof (round_nearest_even_spec _ (loc_of_shr_record mrs1) N1) as R.
  set (m2 := round_nearest_even (shr_m mrs1) (loc_of_shr_record mrs1)) in *.
  assert (N2 : 0 <= m2) by lia.
  pose proof (Zdigits2_succ_le _ _ N1 R) as D2.
  pose proof (shr_fexp_spec m2 e1 loc_Exact N2) as S3. cbv zeta in S3.
  destruct (shr_fexp prec emax m2 e1 loc_Exact) as [mrs3 e3]. cbn [fst snd] in S3.
  destruct S3 as (N3 & E3 & D3).
  pose proof (Zdigits2_nonneg m) as Hd.
  pose proof (Zdigits2_nonneg m2) as Hd2.
  assert (B : e3 <= Z.max e (fexp prec emax (Zdigits2 m + e + 1))).
  { pose proof (fexp_mono (Zdigits2 m + e) (Zdigits2 m + e + 1) ltac:(lia)).
    assert (fexp prec emax (Zdigits2 m2 + e1) <= Z.max e (fexp prec emax (Zdigits2 m + e + 1))); [|lia].
    destruct (Z_le_gt_dec (Zdigits2 m2 + e1) (Zdigits2 m + e + 1)) as [L|L].
    - pose proof (fexp_mono _ _ L). lia.
    - (* the first shift emptied the mantissa *)
      assert (Zdigits2 (shr_m mrs1) = 0) by lia.
      assert (Zdigits2 m2 <= 1) by lia.
      assert (e < e1) by lia.
      assert (e1 = fexp prec emax (Zdigits2 m + e)) by lia.
      pose proof (fexp_ge_emin (Zdigits2 m + e)).
      unfold SpecFloat.fexp at 1. lia. }
  destruct (shr_m mrs3) as [|m3|m3] eqn:M3; [reflexivity| |lia].
  cbn [Zdigits2] in D3.
  assert (F : Zpos (digits2_pos m3) <= prec /\ (emin prec emax) <= e3).
  { pose proof (fexp_ge (Zdigits2 m2 + e1)).
    pose proof (fexp_ge_emin (Zdigits2 m2 + e1)). lia. }
  destruct (e3 <=? emax - prec) eqn:Le.
  - apply Z.leb_le in Le. repeat split; try tauto; lia.
  - apply Z.leb_gt in Le. split; [reflexivity|lia].
Qed.



(** Rounding a mantissa that only carries [n] trailing zero bits past a
    canonical one is exact. *)
Lemma binary_round_aux_exact s M n e :
  bounded prec emax M (e + Z.of_N n) = true ->
  binary_round_aux prec emax s (Zpos (Pos.shiftl M n)) e loc_Exact
  = S754_finite s M (e + Z.of_N n).
Proof.
  unfold bounded, canonical_mantissa. intros H.
  apply andb_true_iff in H. destruct H as [C B].
  apply Z.eqb_eq in C.
  unfold binary_round_aux.
  assert (S2 : shr_fexp prec emax (Zpos M) (e + Z.of_N n) loc_Exact
               = (Build_shr_record (Zpos M) false false, e + Z.of_N n)).
  { unfold shr_fexp. cbn [Zdigits2]. rewrite C, Z.sub_diag. reflexivity. }
  assert (S1 : shr_fexp prec emax (Zpos (Pos.shiftl M n)) e loc_Exact
               = (Build_shr_record (Zpos M) false false, e + Z.of_N n)).
  { unfold shr_fexp. cbn [Zdigits2].
    destruct n as [|p]; cbn [Pos.shiftl Z.of_N] in *.
    - rewrite Z.add_0_r in *. rewrite C, Z.sub_diag. reflexivity.
    - rewrite digits2_pos_shiftl.
      replace (Zpos (digits2_pos M) + Zpos p + e)
        with (Zpos (digits2_pos M) + (e + Zpos p)) by lia.
      rewrite C. replace (e + Zpos p - e) with (Zpos p) by lia.
      cbn [shr shr_record_of_loc]. rewrite iter_shr_1_shiftl. reflexivity. }
  rewrite S1. cbn [shr_m loc_of_shr_record round_nearest_even].
  rewrite S2. cbn [shr_m]. rewrite B. reflexivity.
Qed.



(** Normalising a mantissa of at most [prec] digits, in the normal range,
    only shifts it up to [prec] digits. *)
Lemma binary_round_normal s m e :
  let d := Zpos (Pos.size m) in
  d <= prec ->
  emin prec emax <= d + e - prec <= emax - prec ->
  binary_round prec emax s m e
  = S754_finite s (Pos.shiftl m (Z.to_N (prec - d))) (d + e - prec).
Proof.
  intros d H R. unfold binary_round.
  rewrite digits2_pos_size. fold d.
  assert (F : fexp prec emax (d + e) = d + e - prec).
  { unfold fexp. lia. }
  rewrite F. unfold shl_align.
  set (n := Z.to_N (prec - d)).
  assert (A : match d + e - prec - e with
              | Zneg k => (Pos.iter xO m k, d + e - prec)
              | _ => (m, e) end
              = (Pos.shiftl m n, d + e - prec)).
  { subst n. destruct (d + e - prec - e) as [|q|q] eqn:E; try lia.
    - replace (prec - d) with 0 by lia. cbn [Z.to_N Pos.shiftl]. f_equal. lia.
    - replace (prec - d) with (Zpos q) by lia. reflexivity. }
  rewrite A.
  pose proof (binary_round_aux_exact s (Pos.shiftl m n) 0 (d + e - prec)) as X.
  cbn [Pos.shiftl Z.of_N] in X. rewrite Z.add_0_r in X. apply X.
  unfold bounded, canonical_mantissa. apply andb_true_iff. split.
  - apply Z.eqb_eq. rewrite digits2_pos_size, size_shiftl. fold d. subst n.
    rewrite Z2N.id by lia. unfold fexp. lia.
  - apply Z.leb_le. lia.
Qed.

(** An integer of at most [prec] bits converts exactly. *)
Lemma of_Z_pos p :
  prec < emax ->
  Zpos (Pos.size p) <= prec ->
  of_Z prec emax (Zpos p)
  = S754_finite false (Pos.shiftl p (Z.to_N (prec - Zpos (Pos.size p))))
                (Zpos (Pos.size p) - prec).
Proof.
  intros L H. unfold of_Z, binary_normalize.
  rewrite binary_round_normal; [f_equal; lia|exact H|unfold emin; lia].
Qed.

Lemma new_location_0 n : new_location n 0 = loc_Exact.
Proof. unfold new_location. destruct (Z.even n); reflexivity. Qed.

Lemma div_eucl_exact a b : 0 < b -> Z.div_eucl (a * b) b = (a, 0).
Proof.
  intros Hb. pose proof (Z.div_mul a b ltac:(lia)) as Q.
  pose proof (Z.mod_mul a b ltac:(lia)) as R.
  unfold Z.div, Z.modulo in Q, R.
  destruct (Z.div_eucl (a * b) b) as [q r]. congruence.
Qed.

(** Dividing by a power of two only moves the exponent, as long as the
    quotient is representable. *)
Lemma SFdiv_pow2 sx mx ex sy ey :
  bounded prec emax mx (ex - ey - (prec - 1)) = true ->
  SFdiv prec emax (S754_finite sx mx ex) (S754_finite sy (pow2_mantissa prec) ey)
  = S754_finite (xorb sx sy) mx (ex - ey - (prec - 1)).
Proof.
  intros Hb. set (er := ex - ey - (prec - 1)) in *.
  pose proof Hb as Hb'. unfold bounded, canonical_mantissa in Hb'.
  apply andb_true_iff in Hb'. destruct Hb' as [C _]. apply Z.eqb_eq in C.
  assert (D2 : Zdigits2 (Zpos (pow2_mantissa prec)) = prec).
  { cbn [Zdigits2]. rewrite digits2_pos_size. unfold pow2_mantissa.
    rewrite size_shiftl, Z2N.id by lia. cbn [Pos.size]. lia. }
  assert (P2 : Zpos (pow2_mantissa prec) = 2 ^ (prec - 1)).
  { unfold pow2_mantissa. rewrite Zpos_shiftl, Z2N.id by lia. lia. }
  set (d := Zpos (digits2_pos mx)) in *.
  assert (Hd : 0 < d) by (subst d; lia).
  set (n := if Z_le_gt_dec (d + er - prec) (emin prec emax) then 0%N else 1%N).
  assert (Core : SFdiv_core_binary prec emax (Zpos mx) ex (Zpos (pow2_mantissa prec)) ey
                 = (Zpos (Pos.shiftl mx n), er - Z.of_N n, loc_Exact)).
  { unfold SFdiv_core_binary. rewrite D2. cbn [Zdigits2]. fold d.
    set (e' := Z.min _ _).
    assert (E' : e' = er - Z.of_N n).
    { subst e' n. unfold fexp in *. 
      destruct (Z_le_gt_dec (d + er - prec) (emin prec emax)); cbn [Z.of_N]; lia. }
    assert (S : ex - ey - e' = prec - 1 + Z.of_N n) by (subst er; lia).
    rewrite S.
    assert (Hn : 0 <= Z.of_N n <= 1) by (subst n; destruct (Z_le_gt_dec _ _); cbn; lia).
    assert (M : match prec - 1 + Z.of_N n with
                | 0 => Zpos mx
                | Zpos _ => Z.shiftl (Zpos mx) (prec - 1 + Z.of_N n)
                | Zneg _ => 0 end
                = Zpos (Pos.shiftl mx n) * Zpos (pow2_mantissa prec)).
    { destruct (prec - 1 + Z.of_N n) as [|q|q] eqn:Q; try lia.
      rewrite Z.shiftl_mul_pow2, <- Q by lia.
      rewrite Zpos_shiftl, P2, Z.pow_add_r by lia. lia. }
    rewrite M, div_eucl_exact by lia. rewrite new_location_0, E'. reflexivity. }
  unfold SFdiv. rewrite Core.
  replace er with (er - Z.of_N n + Z.of_N n) at 2 by lia.
  apply binary_round_aux_exact.
  replace (er - Z.of_N n + Z.of_N n) with er by lia. exact Hb.
Qed.


End Rounding.

(** ** The arithmetic operations *)

Lemma sign_is_not_nan s x : sign_is s x -> is_nan x = false.
Proof. destruct x; simpl; intros H; [reflexivity|reflexivity|contradiction|reflexivity]. Qed.

Lemma sign_false_nonneg x : sign_is false x -> nonneg x = true.
Proof. destruct x as [s|s| |s m e]; simpl; intros H; subst; try reflexivity; contradiction. Qed.

Lemma nonneg_cases x :
  nonneg x = true -> is_zero x = true \/ sign_is false x.
Proof.
  destruct x as [s|[]| |[] m e]; cbn; intros H; try discriminate; auto.
Qed.

Lemma nonneg_not_nan x : nonneg x = true -> is_nan x = false.
Proof. destruct x; cbn; intros H; try reflexivity; discriminate. Qed.

Section Arith.
Variables prec emax : Z.
Hypothesis prec_gt_1 : 1 < prec.

Lemma binary_round_aux_sign s m e l :
  0 <= m -> sign_is s (binary_round_aux prec emax s m e l).
Proof.
  intros H. pose proof (binary_round_aux_shape prec emax prec_gt_1 s m e l H) as S.
  destruct (binary_round_aux prec emax s m e l); cbn; tauto.
Qed.

Lemma binary_round_aux_fits s m e l :
  0 <= m -> fits prec emax (binary_round_aux prec emax s m e l).
Proof.
  intros H. pose proof (binary_round_aux_shape prec emax prec_gt_1 s m e l H) as S.
  destruct (binary_round_aux prec emax s m e l); cbn; tauto.
Qed.

Lemma binary_round_aux_finite s m e l :
  0 <= m ->
  Z.max e (fexp prec emax (Zdigits2 m + e + 1)) <= emax - prec ->
  is_finite (binary_round_aux prec emax s m e l) = true.
Proof.
  intros H B. pose proof (binary_round_aux_shape prec emax prec_gt_1 s m e l H) as S.
  destruct (binary_round_aux prec emax s m e l); cbn; try tauto; try reflexivity. lia.
Qed.

Lemma binary_round_sign s m e : sign_is s (binary_round prec emax s m e).
Proof.
  unfold binary_round. destruct (shl_align m e _) as [mz ez].
  apply binary_round_aux_sign. lia.
Qed.

Lemma binary_normalize_not_nan m e sz :
  is_nan (binary_normalize prec emax m e sz) = false.
Proof.
  destruct m; cbn [binary_normalize]; [reflexivity| |];
    eapply sign_is_not_nan, binary_round_sign.
Qed.

Lemma SFdiv_core_nonneg m1 e1 m2 e2 :
  0 <= fst (fst (SFdiv_core_binary prec emax (Zpos m1) e1 (Zpos m2) e2)).
Proof.
  unfold SFdiv_core_binary.
  set (s := e1 - e2 - _).
  set (m' := match s with Z0 => Zpos m1 | Zpos _ => Z.shiftl (Zpos m1) s | Zneg _ => 0 end).
  assert (Hm : 0 <= m').
  { subst m'. destruct s; try lia. apply Z.shiftl_nonneg. lia. }
  pose proof (Z.div_pos m' (Zpos m2) Hm ltac:(lia)) as Q.
  unfold Z.div in Q. destruct (Z.div_eucl m' (Zpos m2)) as [q r]. exact Q.
Qed.

Lemma SFdiv_finite_sign sx mx ex sy my ey :
  sign_is (xorb sx sy)
    (SFdiv prec emax (S754_finite sx mx ex) (S754_finite sy my ey)).
Proof.
  cbn [SFdiv]. pose proof (SFdiv_core_nonneg mx ex my ey) as N.
  destruct (SFdiv_core_binary prec emax (Zpos mx) ex (Zpos my) ey) as [[mz ez] lz].
  apply binary_round_aux_sign. exact N.
Qed.

Lemma SFdiv_fits x y : fits prec emax (SFdiv prec emax x y).
Proof.
  destruct x as [sx|sx| |sx mx ex], y as [sy|sy| |sy my ey]; try exact I.
  cbn [SFdiv]. pose proof (SFdiv_core_nonneg mx ex my ey) as N.
  destruct (SFdiv_core_binary prec emax (Zpos mx) ex (Zpos my) ey) as [[mz ez] lz].
  apply binary_round_aux_fits. exact N.
Qed.

(** Division by a finite non-zero number never makes a NaN out of a number. *)
Lemma SFdiv_not_nan x sy my ey :
  is_nan x = false -> is_nan (SFdiv prec emax x (S754_finite sy my ey)) = false.
Proof.
  destruct x as [sx|sx| |sx mx ex]; intros H; try reflexivity; try discriminate.
  eapply sign_is_not_nan, SFdiv_finite_sign.
Qed.

Lemma SFdiv_nonneg x my ey :
  nonneg x = true -> nonneg (SFdiv prec emax x (S754_finite false my ey)) = true.
Proof.
  destruct x as [sx|[]| |[] mx ex]; cbn [nonneg]; intros H; try discriminate H;
    try reflexivity.
  apply sign_false_nonneg. apply (SFdiv_finite_sign false mx ex false my ey).
Qed.

(** A zero divisor gives an infinity or a NaN. *)
Lemma SFdiv_zero_divisor x y :
  is_zero y = true -> is_finite (SFdiv prec emax x y) = false.
Proof.
  destruct y; intros H; try discriminate H. destruct x; reflexivity.
Qed.

Lemma SFmul_finite_sign sx mx ex sy my ey :
  sign_is (xorb sx sy)
    (SFmul prec emax (S754_finite sx mx ex) (S754_finite sy my ey)).
Proof. cbn [SFmul]. apply binary_round_aux_sign. lia. Qed.

Lemma SFmul_nonneg x my ey :
  nonneg x = true -> nonneg (SFmul prec emax x (S754_finite false my ey)) = true.
Proof.
  destruct x as [sx|[]| |[] mx ex]; cbn [nonneg]; intros H; try discriminate H;
    try reflexivity.
  apply sign_false_nonneg. apply (SFmul_finite_sign false mx ex false my ey).
Qed.

Lemma SFmul_square_nonneg d :
  is_nan d = false -> nonneg (SFmul prec emax d d) = true.
Proof.
  destruct d as [s|s| |s m e]; intros H; try discriminate H.
  - destruct s; reflexivity.
  - destruct s; reflexivity.
  - apply sign_false_nonneg.
    pose proof (SFmul_finite_sign s m e s m e) as S. rewrite xorb_nilpotent in S. exact S.
Qed.

Lemma SFadd_finite_not_nan sx mx ex sy my ey :
  is_nan (SFadd prec emax (S754_finite sx mx ex) (S754_finite sy my ey)) = false.
Proof. cbn [SFadd]. apply binary_normalize_not_nan. Qed.

Lemma SFadd_not_nan x y :
  is_nan x = false -> is_finite y = true -> is_nan (SFadd prec emax x y) = false.
Proof.
  destruct x as [sx|sx| |sx mx ex], y as [sy|sy| |sy my ey]; intros Hx Hy;
    try discriminate; try reflexivity.
  - destruct sx, sy; reflexivity.
  - apply SFadd_finite_not_nan.
Qed.

(** Two numbers, neither of them [+inf], add up to a number. *)
Lemma SFadd_not_nan_below x y :
  is_nan x = false -> is_nan y = false ->
  x <> S754_infinity false -> y <> S754_infinity false ->
  is_nan (SFadd prec emax x y) = false.
Proof.
  destruct x as [sx|[]| |sx mx ex], y as [sy|[]| |sy my ey]; intros Hx Hy Nx Ny;
    try discriminate; try reflexivity; try congruence.
  - destruct sx, sy; reflexivity.
  - apply SFadd_finite_not_nan.
Qed.

Lemma SFadd_nonneg x y :
  nonneg x = true -> nonneg y = true -> nonneg (SFadd prec emax x y) = true.
Proof.
  destruct x as [sx|[]| |[] mx ex], y as [sy|[]| |[] my ey]; cbn [nonneg];
    intros Hx Hy; try discriminate; try reflexivity.
  - destruct sx, sy; reflexivity.
  - apply sign_false_nonneg. cbn [SFadd cond_Zopp].
    cbn [Z.add binary_normalize]. apply binary_round_sign.
Qed.

Lemma SFsub_not_nan x y :
  is_finite x = true -> is_nan y = false -> is_nan (SFsub prec emax x y) = false.
Proof.
  destruct x as [sx|sx| |sx mx ex], y as [sy|sy| |sy my ey]; intros Hx Hy;
    try discriminate; try reflexivity.
  - destruct sx, sy; reflexivity.
  - cbn [SFsub]. apply binary_normalize_not_nan.
Qed.

(** [x - x] is a zero for every finite [x]. *)
Lemma SFsub_diag x :
  is_finite x = true -> is_zero (SFsub prec emax x x) = true.
Proof.
  destruct x as [s|s| |s m e]; intros H; try discriminate.
  - destruct s; reflexivity.
  - cbn [SFsub]. rewrite Z.sub_diag. reflexivity.
Qed.

End Arith.

(** ** Division *)

Section Division.
Variables prec emax : Z.
Hypothesis prec_gt_1 : 1 < prec.

(** Dividing a well-formed finite number by one of magnitude two or more
    cannot overflow. *)
Lemma SFdiv_finite sx mx ex sy my ey :
  bounded prec emax mx ex = true ->
  2 <= Zpos (digits2_pos my) + ey ->
  is_finite (SFdiv prec emax (S754_finite sx mx ex) (S754_finite sy my ey)) = true.
Proof.
  intros Hb Hy.
  unfold bounded, canonical_mantissa in Hb. apply andb_true_iff in Hb.
  destruct Hb as [C B]. apply Z.eqb_eq in C. apply Z.leb_le in B.
  cbn [SFdiv]. pose proof (SFdiv_core_nonneg prec emax mx ex my ey) as N.
  unfold SFdiv_core_binary in *. cbn [Zdigits2] in *.
  set (d1 := Zpos (digits2_pos mx)) in *. set (d2 := Zpos (digits2_pos my)) in *.
  set (e' := Z.min (fexp prec emax (d1 + ex - (d2 + ey))) (ex - ey)) in *.
  set (s := ex - ey - e') in *.
  set (m' := match s with Z0 => Zpos mx | Zpos _ => Z.shiftl (Zpos mx) s | Zneg _ => 0 end) in *.
  assert (Hs : 0 <= s) by (subst s e'; lia).
  assert (Hm' : m' = Zpos mx * 2 ^ s).
  { subst m'. destruct s as [|p|p] eqn:Es; try lia.
    rewrite Z.shiftl_mul_pow2 by lia. reflexivity. }
  assert (E'le : e' <= ex).
  { pose proof (fexp_mono prec emax (d1 + ex - (d2 + ey)) (d1 + ex) ltac:(lia)).
    subst e'. lia. }
  pose proof (fexp_ge_emin prec emax (d1 + ex)) as Emin.
  assert (P2s : 0 < 2 ^ s) by (apply Z.pow_pos_nonneg; lia).
  assert (Mx : Zpos mx < 2 ^ d1).
  { pose proof (Zdigits2_gt (Zpos mx) ltac:(lia)) as G. exact G. }
  assert (My : 2 ^ (d2 - 1) <= Zpos my).
  { pose proof (Zdigits2_ge_pow (Zpos my) ltac:(lia)) as G. exact G. }
  assert (Hm'0 : 0 <= m') by nia.
  assert (Hm'lt : m' < 2 ^ (d1 + s)).
  { rewrite Hm', Z.pow_add_r by (subst d1; lia). nia. }
  assert (Q : fst (Z.div_eucl m' (Zpos my)) = m' / Zpos my) by reflexivity.
  destruct (Z.div_eucl m' (Zpos my)) as [q r]. cbn [fst] in *.
  apply binary_round_aux_finite; [exact prec_gt_1|exact N|].
  assert (Dq : Zdigits2 q <= Z.max 0 (d1 + s - d2 + 1)).
  { destruct (Z_lt_ge_dec (d1 + s - d2 + 1) 0) as [K|K].
    - assert (H0 : q = 0).
      { rewrite Q. apply Z.div_small. split; [exact Hm'0|].
        assert (2 ^ (d1 + s) <= 2 ^ (d2 - 1)) by (apply Z.pow_le_mono_r; lia). lia. }
      rewrite H0. cbn [Zdigits2]. lia.
    - rewrite Z.max_r by lia. apply Zdigits2_le_bound; [lia|]. split; [exact N|].
      rewrite Q. apply Z.div_lt_upper_bound; [lia|].
      assert (E : 2 ^ (d1 + s) = 2 ^ (d2 - 1) * 2 ^ (d1 + s - d2 + 1)).
      { rewrite <- Z.pow_add_r by (subst d2; lia). f_equal. lia. }
      assert (0 < 2 ^ (d1 + s - d2 + 1)) by (apply Z.pow_pos_nonneg; lia).
      nia. }
  assert (F : fexp prec emax (Zdigits2 q + e' + 1) <= ex).
  { destruct (Z_le_gt_dec (Zdigits2 q + e' + 1) (d1 + ex)) as [L|L].
    - pose proof (fexp_mono prec emax _ _ L). lia.
    - assert (Zdigits2 q = 0) by (subst s; lia).
      unfold fexp in *. lia. }
  lia.
Qed.

(** Division by one is the identity on well-formed finite numbers. *)
Lemma SFdiv_one s m e :
  bounded prec emax m e = true ->
  SFdiv prec emax (S754_finite s m e)
        (S754_finite false (pow2_mantissa prec) (- (prec - 1)))
  = S754_finite s m e.
Proof.
  intros Hb.
  rewrite (SFdiv_pow2 prec emax prec_gt_1).
  - rewrite xorb_false_r. f_equal. lia.
  - replace (e - - (prec - 1) - (prec - 1)) with e by lia. exact Hb.
Qed.

End Division.

(** ** Comparison *)

Lemma SFcompare_antisym x y c :
  SFcompare x y = Some c -> SFcompare y x = Some (CompOpp c).
Proof.
  destruct x as [sx|sx| |sx mx ex], y as [sy|sy| |sy my ey]; cbn;
    intros H; try discriminate; injection H as <-;
    try (destruct sx; reflexivity); try (destruct sy; reflexivity);
    try (destruct sx, sy; reflexivity); try reflexivity.
  pose proof (Pos.compare_cont_antisym mx my Eq) as A. cbn [CompOpp] in A.
  destruct sx, sy; try reflexivity; f_equal;
    rewrite (Z.compare_antisym ex ey), <- A;
    destruct (ex ?= ey); cbn; try reflexivity;
    destruct (Pos.compare_cont Eq mx my); reflexivity.
Qed.

Lemma SFltb_leb x y : SFltb x y = true -> SFleb x y = true.
Proof. unfold SFltb, SFleb. destruct (SFcompare x y) as [[]|]; congruence. Qed.

Lemma SFleb_not_ltb x y : SFleb x y = true -> SFltb y x = false.
Proof.
  unfold SFltb, SFleb. destruct (SFcompare x y) as [c|] eqn:E; [|discriminate].
  rewrite (SFcompare_antisym x y c E). destruct c; cbn; congruence.
Qed.

Lemma SFltb_not_nan_l x y : SFltb x y = true -> is_nan x = false.
Proof. destruct x; try reflexivity. cbn. discriminate. Qed.

Lemma SFltb_false_leb x y :
  is_nan x = false -> is_nan y = false -> SFltb x y = false -> SFleb y x = true.
Proof.
  intros Hx Hy. unfold SFltb, SFleb.
  destruct (SFcompare x y) as [c|] eqn:E.
  - rewrite (SFcompare_antisym x y c E). destruct c; cbn; congruence.
  - destruct x, y; cbn in *; discriminate.
Qed.

(** Two numbers that compare equal are the same number, unless they are
    zeros. *)
Lemma SFcompare_Eq_finite x s m e :
  SFcompare x (S754_finite s m e) = Some Eq -> x = S754_finite s m e.
Proof.
  destruct x as [sx|sx| |sx mx ex]; cbn; try discriminate.
  - destruct s; discriminate.
  - destruct sx; discriminate.
  - intros H. injection H as H.
    destruct sx, s; try discriminate;
      destruct (ex ?= e) eqn:Ce; try discriminate;
      apply Z.compare_eq in Ce;
      destruct (Pos.compare_cont Eq mx m) eqn:Cm; try discriminate;
      assert (Cm' : (mx ?= m)%positive = Eq) by exact Cm;
      apply Pos.compare_eq in Cm'; subst; reflexivity.
Qed.

Lemma SFleb_cases x y :
  SFleb x y = true -> SFltb x y = true \/ SFcompare x y = Some Eq.
Proof.
  unfold SFleb, SFltb. destruct (SFcompare x y) as [[]|]; try discriminate; auto.
Qed.

(** ** [np.clip] *)

Lemma np_clip_in_range x lo hi :
  is_nan x = false ->
  SFleb lo lo = true -> SFleb hi hi = true -> SFleb lo hi = true ->
  in_range lo hi (np_clip x lo hi) = true.
Proof.
  intros Hx Hlo Hhi Hlh.
  assert (Nlo : is_nan lo = false) by (destruct lo; try reflexivity; discriminate).
  assert (Nhi : is_nan hi = false) by (destruct hi; try reflexivity; discriminate).
  unfold np_clip, in_range. rewrite Nlo, Nhi. cbn [orb]. cbv zeta.
  destruct (SFltb x lo) eqn:E1.
  - rewrite (SFleb_not_ltb _ _ Hlh), Hlo, Hlh. reflexivity.
  - pose proof (SFltb_false_leb x lo Hx Nlo E1) as L.
    destruct (SFltb hi x) eqn:E2.
    + rewrite Hlh, Hhi. reflexivity.
    + rewrite L, (SFltb_false_leb hi x Nhi Hx E2). reflexivity.
Qed.

(** The three cases of the clamp between two finite bounds other than
    zero. *)
Lemma np_clip_cases x lo hi sl ml el sh mh eh :
  lo = S754_finite sl ml el -> hi = S754_finite sh mh eh ->
  is_nan x = false -> SFleb lo hi = true ->
  (SFleb x lo = true -> np_clip x lo hi = lo) /\
  (SFltb lo x = true -> SFltb x hi = true -> np_clip x lo hi = x) /\
  (SFltb lo x = true -> SFltb x hi = false -> np_clip x lo hi = hi).
Proof.
  intros El Eh Hx Hlh.
  assert (Nlo : is_nan lo = false) by (subst lo; reflexivity).
  assert (Nhi : is_nan hi = false) by (subst hi; reflexivity).
  unfold np_clip. rewrite Nlo, Nhi. cbn [orb]. cbv zeta.
  pose proof (SFleb_not_ltb _ _ Hlh) as Hhl.
  split; [|split].
  - intros H. destruct (SFleb_cases _ _ H) as [L|E].
    + rewrite L, Hhl. reflexivity.
    + rewrite El in E. apply SFcompare_Eq_finite in E. rewrite <- El in E.
      subst x. destruct (SFltb lo lo); rewrite Hhl; reflexivity.
  - intros H1 H2. rewrite (SFleb_not_ltb _ _ (SFltb_leb _ _ H1)).
    rewrite (SFleb_not_ltb _ _ (SFltb_leb _ _ H2)). reflexivity.
  - intros H1 H2. rewrite (SFleb_not_ltb _ _ (SFltb_leb _ _ H1)).
    destruct (SFltb hi x) eqn:E; [reflexivity|].
    pose proof (SFltb_false_leb hi x Nhi Hx E) as L.
    destruct (SFleb_cases _ _ L) as [L'|E']; [congruence|].
    rewrite Eh in E'. apply SFcompare_Eq_finite in E'. rewrite <- Eh in E'.
    exact E'.
Qed.

(** ** Sums and means *)

Section Reductions.
Variables prec emax : Z.
Hypothesis prec_gt_1 : 1 < prec.

Lemma fold_add_nonneg l : forall acc,
  nonneg acc = true -> forallb nonneg l = true ->
  nonneg (fold_left (SFadd prec emax) l acc) = true.
Proof.
  induction l as [|x l IH]; intros acc Ha Hl; cbn [fold_left]; [exact Ha|].
  cbn [forallb] in Hl. apply andb_true_iff in Hl. destruct Hl as [Hx Hl].
  apply IH; [|exact Hl]. apply SFadd_nonneg; assumption.
Qed.

Lemma np_sum_axis_nonneg l :
  forallb nonneg l = true -> nonneg (np_sum_axis prec emax l) = true.
Proof. intros H. apply fold_add_nonneg; [reflexivity|exact H]. Qed.

Lemma fold_add_not_nan l : forall acc,
  is_nan acc = false -> forallb is_finite l = true ->
  is_nan (fold_left (SFadd prec emax) l acc) = false.
Proof.
  induction l as [|x l IH]; intros acc Ha Hl; cbn [fold_left]; [exact Ha|].
  cbn [forallb] in Hl. apply andb_true_iff in Hl. destruct Hl as [Hx Hl].
  apply IH; [|exact Hl]. apply SFadd_not_nan; assumption.
Qed.

Lemma np_sum_axis_not_nan l :
  forallb is_finite l = true -> is_nan (np_sum_axis prec emax l) = false.
Proof. intros H. apply fold_add_not_nan; [reflexivity|exact H]. Qed.

Lemma np_size_map (f : spec_float -> spec_float) l :
  np_size prec emax (map f l) = np_size prec emax l.
Proof. unfold np_size. rewrite length_map. reflexivity. Qed.

(** The variance of finitely many finite numbers is a number, and not a
    negative one (it may be [+inf] after an overflow). *)
Lemma np_var_axis_nonneg l m e :
  np_size prec emax l = S754_finite false m e ->
  forallb is_finite l = true ->
  nonneg (np_var_axis prec emax l) = true.
Proof.
  intros Hn Hl. unfold np_var_axis. cbv zeta.
  set (mu := np_mean_axis prec emax l).
  assert (Hmu : is_nan mu = false).
  { subst mu. unfold np_mean_axis. rewrite Hn.
    apply SFdiv_not_nan; [exact prec_gt_1|]. apply np_sum_axis_not_nan, Hl. }
  unfold np_mean_axis at 1. rewrite np_size_map, Hn.
  apply SFdiv_nonneg; [exact prec_gt_1|].
  apply np_sum_axis_nonneg. rewrite forallb_forall. intros y Hy.
  apply in_map_iff in Hy. destruct Hy as (x & <- & Hx).
  apply SFmul_square_nonneg; [exact prec_gt_1|].
  apply SFsub_not_nan; [exact prec_gt_1| |exact Hmu].
  rewrite forallb_forall in Hl. apply Hl, Hx.
Qed.

(** *** Pairwise summation *)

Lemma split_point_bounds n :
  (128 < n)%nat -> (0 < split_point n < n)%nat.
Proof.
  unfold split_point. intros H.
  pose proof (Nat.div_mod_eq n 2) as D.
  pose proof (Nat.mod_upper_bound n 2 ltac:(lia)) as M.
  pose proof (Nat.div_mod_eq (n / 2) 8) as D8.
  pose proof (Nat.mod_upper_bound (n / 2) 8 ltac:(lia)) as M8.
  lia.
Qed.

(** The depth given to [pairwise_sum] does not matter once it is at least
    the length of the array: the recursion always ends in a block. *)
Lemma pairwise_sum_depth_irrelevant d1 : forall d2 l,
  (length l <= d1)%nat -> (length l <= d2)%nat ->
  pairwise_sum prec emax d1 l = pairwise_sum prec emax d2 l.
Proof.
  induction d1 as [|d1 IH]; intros d2 l H1 H2.
  - destruct l; [|cbn in H1; lia]. destruct d2; reflexivity.
  - destruct d2 as [|d2].
    + destruct l; [|cbn in H2; lia]. reflexivity.
    + cbn [pairwise_sum]. destruct (length l <=? 128)%nat eqn:E; [reflexivity|].
      apply Nat.leb_gt in E. pose proof (split_point_bounds _ E) as B.
      cbv zeta. f_equal.
      * apply IH; rewrite length_firstn; lia.
      * apply IH; rewrite length_skipn; lia.
Qed.

Lemma pairwise_sum_depth d l :
  (length l <= d)%nat ->
  pairwise_sum prec emax d l = pairwise_sum prec emax (length l) l.
Proof. intros H. apply pairwise_sum_depth_irrelevant; [exact H|lia]. Qed.

(** An array longer than 128 is summed as its two parts. *)
Lemma np_sum_split l :
  (128 < length l)%nat ->
  np_sum prec emax l
  = SFadd prec emax (S754_zero false)
      (SFadd prec emax
         (pairwise_sum prec emax (split_point (length l))
            (firstn (split_point (length l)) l))
         (pairwise_sum prec emax (length l - split_point (length l))
            (skipn (split_point (length l)) l))).
Proof.
  intros H. unfold np_sum. pose proof (split_point_bounds _ H) as B.
  destruct (length l) as [|n] eqn:L; [lia|]. cbn [pairwise_sum]. rewrite L.
  destruct (S n <=? 128)%nat eqn:E; [apply Nat.leb_le in E; lia|].
  cbv zeta. f_equal. f_equal.
  - rewrite pairwise_sum_depth; [rewrite length_firstn; f_equal; lia|].
    rewrite length_firstn. lia.
  - rewrite pairwise_sum_depth; [rewrite length_skipn; f_equal; lia|].
    rewrite length_skipn. lia.
Qed.

Section Closure.
Variable P : spec_float -> Prop.
Hypothesis P_add : forall x y, P x -> P y -> P (SFadd prec emax x y).

Lemma fold_add_closed l : forall acc,
  P acc -> (forall x, In x l -> P x) -> P (fold_left (SFadd prec emax) l acc).
Proof.
  induction l as [|x l IH]; intros acc Ha Hl; cbn [fold_left]; [exact Ha|].
  apply IH.
  - apply P_add; [exact Ha|]. apply Hl. left. reflexivity.
  - intros y Hy. apply Hl. right. exact Hy.
Qed.

Lemma unrolled_sum_closed n : forall rest r0 r1 r2 r3 r4 r5 r6 r7,
  (length rest <= n)%nat ->
  P r0 -> P r1 -> P r2 -> P r3 -> P r4 -> P r5 -> P r6 -> P r7 ->
  (forall x, In x rest -> P x) ->
  P (unrolled_sum prec emax r0 r1 r2 r3 r4 r5 r6 r7 rest).
Proof.
  induction n as [|n IH]; intros rest r0 r1 r2 r3 r4 r5 r6 r7 L H0 H1 H2 H3 H4 H5 H6 H7 Hr.
  - destruct rest; [|cbn in L; lia]. cbn [unrolled_sum fold_left].
    repeat apply P_add; assumption.
  - destruct rest as [|a0 [|a1 [|a2 [|a3 [|a4 [|a5 [|a6 [|a7 rest]]]]]]]];
      try (cbn [unrolled_sum]; apply fold_add_closed;
           [repeat apply P_add; assumption|exact Hr]).
    cbn [unrolled_sum]. apply IH.
    + cbn [length] in L. lia.
    + apply P_add; [assumption|apply Hr; cbn; tauto].
    + apply P_add; [assumption|apply Hr; cbn; tauto].
    + apply P_add; [assumption|apply Hr; cbn; tauto].
    + apply P_add; [assumption|apply Hr; cbn; tauto].
    + apply P_add; [assumption|apply Hr; cbn; tauto].
    + apply P_add; [assumption|apply Hr; cbn; tauto].
    + apply P_add; [assumption|apply Hr; cbn; tauto].
    + apply P_add; [assumption|apply Hr; cbn; tauto].
    + intros x Hx. apply Hr. cbn. tauto.
Qed.

Lemma block_sum_closed l :
  P (S754_zero true) -> (forall x, In x l -> P x) -> P (block_sum prec emax l).
Proof.
  intros Hz Hl. unfold block_sum.
  destruct l as [|a0 [|a1 [|a2 [|a3 [|a4 [|a5 [|a6 [|a7 rest]]]]]]]];
    try (apply fold_add_closed; [exact Hz|exact Hl]).
  apply (unrolled_sum_closed (length rest)); try lia;
    try (apply Hl; cbn; tauto).
  intros x Hx. apply Hl. cbn. tauto.
Qed.

Lemma pairwise_sum_closed d : forall l,
  P (S754_zero true) -> (forall x, In x l -> P x) -> P (pairwise_sum prec emax d l).
Proof.
  induction d as [|d IH]; intros l Hz Hl; cbn [pairwise_sum].
  - apply block_sum_closed; assumption.
  - destruct (length l <=? 128)%nat; [apply block_sum_closed; assumption|].
    cbv zeta. apply P_add; apply IH; try exact Hz.
    + intros x Hx. apply Hl.
      rewrite <- (firstn_skipn (split_point (length l)) l).
      apply in_or_app. left. exact Hx.
    + intros x Hx. apply Hl.
      rewrite <- (firstn_skipn (split_point (length l)) l).
      apply in_or_app. right. exact Hx.
Qed.

Lemma np_sum_closed l :
  P (S754_zero false) -> P (S754_zero true) -> (forall x, In x l -> P x) ->
  P (np_sum prec emax l).
Proof.
  intros Hp Hn Hl. unfold np_sum. apply P_add; [exact Hp|].
  apply pairwise_sum_closed; assumption.
Qed.

End Closure.

(** The sum of numbers that are not negative is not negative (it may be
    [+inf]), whatever the order of the additions. *)
Lemma np_sum_nonneg l :
  forallb nonneg l = true -> nonneg (np_sum prec emax l) = true.
Proof.
  intros H. apply (np_sum_closed (fun x => nonneg x = true)).
  - intros x y Hx Hy. apply SFadd_nonneg; assumption.
  - reflexivity.
  - reflexivity.
  - rewrite forallb_forall in H. exact H.
Qed.

Lemma SFadd_negzero_l y : SFadd prec emax (S754_zero true) y = y.
Proof. destruct y as [[]|[]| |]; reflexivity. Qed.

Lemma np_sum_single x :
  np_sum prec emax [x] = SFadd prec emax (S754_zero false) x.
Proof.
  unfold np_sum. cbn [pairwise_sum length Nat.leb block_sum fold_left].
  rewrite SFadd_negzero_l. reflexivity.
Qed.


End Reductions.

(** ** Extrema *)

Lemma np_maximum_nan_l a b : is_nan a = true -> np_maximum a b = a.
Proof. intros H. unfold np_maximum. rewrite H, orb_true_r. reflexivity. Qed.

Lemma np_minimum_nan_l a b : is_nan a = true -> np_minimum a b = a.
Proof. intros H. unfold np_minimum. rewrite H, orb_true_r. reflexivity. Qed.

Lemma np_maximum_nan_r a b : is_nan b = true -> is_nan (np_maximum a b) = true.
Proof.
  intros H. destruct b; try discriminate. unfold np_maximum. cbn.
  destruct (is_nan a) eqn:E; [exact E|reflexivity].
Qed.

Lemma np_minimum_nan_r a b : is_nan b = true -> is_nan (np_minimum a b) = true.
Proof.
  intros H. destruct b; try discriminate. unfold np_minimum.
  replace (SFleb a S754_nan) with false by (destruct a; reflexivity). cbn.
  destruct (is_nan a) eqn:E; [exact E|reflexivity].
Qed.

Lemma fold_maximum_nan t : forall a,
  is_nan a = true -> is_nan (fold_left np_maximum t a) = true.
Proof.
  induction t as [|x t IH]; intros a H; cbn [fold_left]; [exact H|].
  apply IH. rewrite np_maximum_nan_l; assumption.
Qed.

Lemma fold_minimum_nan t : forall a,
  is_nan a = true -> is_nan (fold_left np_minimum t a) = true.
Proof.
  induction t as [|x t IH]; intros a H; cbn [fold_left]; [exact H|].
  apply IH. rewrite np_minimum_nan_l; assumption.
Qed.

Lemma fold_maximum_has_nan t : forall a,
  existsb is_nan t = true -> is_nan (fold_left np_maximum t a) = true.
Proof.
  induction t as [|x t IH]; intros a H; cbn [fold_left existsb] in *; [discriminate|].
  apply orb_true_iff in H. destruct H as [H|H].
  - apply fold_maximum_nan, np_maximum_nan_r, H.
  - apply IH, H.
Qed.

Lemma fold_minimum_has_nan t : forall a,
  existsb is_nan t = true -> is_nan (fold_left np_minimum t a) = true.
Proof.
  induction t as [|x t IH]; intros a H; cbn [fold_left existsb] in *; [discriminate|].
  apply orb_true_iff in H. destruct H as [H|H].
  - apply fold_minimum_nan, np_minimum_nan_r, H.
  - apply IH, H.
Qed.

Lemma np_maximum_pinf_l b :
  is_nan b = false -> np_maximum (S754_infinity false) b = S754_infinity false.
Proof. destruct b as [s|[]| |s m e]; intros H; try discriminate; reflexivity. Qed.

Lemma np_maximum_pinf_r a :
  is_nan a = false -> np_maximum a (S754_infinity false) = S754_infinity false.
Proof. destruct a as [s|[]| |[] m e]; intros H; try discriminate; reflexivity. Qed.

Lemma np_minimum_ninf_l b :
  is_nan b = false -> np_minimum (S754_infinity true) b = S754_infinity true.
Proof. destruct b as [s|[]| |s m e]; intros H; try discriminate; reflexivity. Qed.

Lemma np_minimum_ninf_r a :
  is_nan a = false -> np_minimum a (S754_infinity true) = S754_infinity true.
Proof. destruct a as [s|[]| |[] m e]; intros H; try discriminate; reflexivity. Qed.

Lemma np_maximum_not_nan a b :
  is_nan a = false -> is_nan b = false -> is_nan (np_maximum a b) = false.
Proof. intros Ha Hb. unfold np_maximum. destruct (_ || _); assumption. Qed.

Lemma np_minimum_not_nan a b :
  is_nan a = false -> is_nan b = false -> is_nan (np_minimum a b) = false.
Proof. intros Ha Hb. unfold np_minimum. destruct (_ || _); assumption. Qed.

Lemma fold_maximum_pinf_acc t :
  existsb is_nan t = false ->
  fold_left np_maximum t (S754_infinity false) = S754_infinity false.
Proof.
  induction t as [|x t IH]; intros H; cbn [fold_left existsb] in *; [reflexivity|].
  apply orb_false_iff in H. destruct H as [Hx Ht].
  rewrite np_maximum_pinf_l by exact Hx. apply IH, Ht.
Qed.

Lemma fold_minimum_ninf_acc t :
  existsb is_nan t = false ->
  fold_left np_minimum t (S754_infinity true) = S754_infinity true.
Proof.
  induction t as [|x t IH]; intros H; cbn [fold_left existsb] in *; [reflexivity|].
  apply orb_false_iff in H. destruct H as [Hx Ht].
  rewrite np_minimum_ninf_l by exact Hx. apply IH, Ht.
Qed.

Lemma fold_maximum_pinf_in t : forall a,
  is_nan a = false -> existsb is_nan t = false ->
  In (S754_infinity false) t ->
  fold_left np_maximum t a = S754_infinity false.
Proof.
  induction t as [|x t IH]; intros a Ha H Hin; cbn [fold_left existsb] in *; [contradiction|].
  apply orb_false_iff in H. destruct H as [Hx Ht].
  destruct Hin as [->|Hin].
  - rewrite np_maximum_pinf_r by exact Ha. apply fold_maximum_pinf_acc, Ht.
  - apply IH; [apply np_maximum_not_nan; assumption|exact Ht|exact Hin].
Qed.

Lemma fold_minimum_ninf_in t : forall a,
  is_nan a = false -> existsb is_nan t = false ->
  In (S754_infinity true) t ->
  fold_left np_minimum t a = S754_infinity true.
Proof.
  induction t as [|x t IH]; intros a Ha H Hin; cbn [fold_left existsb] in *; [contradiction|].
  apply orb_false_iff in H. destruct H as [Hx Ht].
  destruct Hin as [->|Hin].
  - rewrite np_minimum_ninf_r by exact Ha. apply fold_minimum_ninf_acc, Ht.
  - apply IH; [apply np_minimum_not_nan; assumption|exact Ht|exact Hin].
Qed.

(** An array with an element that is not finite has a minimum or a maximum
    that is not finite. *)
Lemma extrema_not_finite x t :
  existsb (fun y => negb (is_finite y)) (x :: t) = true ->
  is_finite (fold_left np_minimum t x) = false \/
  is_finite (fold_left np_maximum t x) = false.
Proof.
  intros H.
  assert (NF : forall y, is_nan y = true -> is_finite y = false)
    by (intros []; cbn; congruence).
  destruct (is_nan x) eqn:Nx.
  { left. apply NF, fold_minimum_nan, Nx. }
  destruct (existsb is_nan t) eqn:Nt.
  { left. apply NF, fold_minimum_has_nan, Nt. }
  apply existsb_exists in H. destruct H as (y & Hy & Fy).
  assert (Ny : is_nan y = false).
  { destruct Hy as [<-|Hy]; [exact Nx|].
    destruct (is_nan y) eqn:E; [|reflexivity].
    assert (existsb is_nan t = true) by (apply existsb_exists; eauto). congruence. }
  destruct y as [s|[]| |s m e]; try discriminate.
  - left. destruct Hy as [->|Hy].
    + rewrite fold_minimum_ninf_acc by exact Nt. reflexivity.
    + rewrite (fold_minimum_ninf_in t x Nx Nt Hy). reflexivity.
  - right. destruct Hy as [->|Hy].
    + rewrite fold_maximum_pinf_acc by exact Nt. reflexivity.
    + rewrite (fold_maximum_pinf_in t x Nx Nt Hy). reflexivity.
Qed.

(** ** Widening binary32 to binary64 *)

Lemma to_f64_not_finite x : is_finite x = false -> is_finite (to_f64 x) = false.
Proof. destruct x; cbn; congruence. Qed.

(** A positive binary32 number below one widens to a binary64 number
    between zero and one. *)
Lemma to_f64_below_one m e :
  fits 24 128 (S754_finite false m e) ->
  SFltb (S754_finite false m e) (of_Z32 1) = true ->
  in_range zero64 one64 (to_f64 (S754_finite false m e)) = true.
Proof.
  intros [Hd He] Hlt. unfold emin in He.
  rewrite digits2_pos_size in Hd.
  change (of_Z32 1) with (S754_finite false 8388608 (-23)) in Hlt.
  unfold SFltb in Hlt. cbn [SFcompare] in Hlt.
  assert (De : Zpos (Pos.size m) + e <= 0).
  { destruct (e ?= -23) eqn:Ce; try discriminate.
    - apply Z.compare_eq in Ce.
      destruct (Pos.compare_cont Eq m 8388608) eqn:Cm; try discriminate.
      assert (G1 : (m ?= 8388608)%positive = Lt) by exact Cm.
      rewrite Pos.compare_lt_iff in G1. apply Pos2Z.pos_lt_pos in G1. clear Cm.
      assert (Zpos (Pos.size m) <= 23).
      { apply size_upper; [lia|]. change (2 ^ 23) with 8388608. exact G1. }
      lia.
    - rewrite Z.compare_lt_iff in Ce. lia. }
  cbn [to_f64].
  rewrite (binary_round_normal 53 1024) by (unfold emin; lia).
  unfold in_range, zero64, one64. cbn [SFleb SFcompare andb].
  assert (C : (Zpos (Pos.size m) + e - 53 ?= -52) = Lt) by (apply Z.compare_lt_iff; lia).
  rewrite C. reflexivity.
Qed.

(** ** Canopy cover as a function of the pixel count *)

Lemma canopy_of_count_pos p :
  Zpos p <= 262144 ->
  let D := Zpos (Pos.size (25 * p)) in
  canopy_of_count (Zpos p) 262144
  = S754_finite false (Pos.shiftl (25 * p) (Z.to_N (53 - D))) (D - 69).
Proof.
  intros Hp D.
  set (d := Zpos (Pos.size p)).
  assert (Hd1 : 1 <= d) by (subst d; lia).
  assert (Hd : d <= 19).
  { apply size_upper; [lia|]. change (2 ^ 19) with 524288. lia. }
  assert (HD : d + 4 <= D <= 23).
  { split.
    - replace (d + 4) with ((d + 3) + 1) by lia. apply size_lower; [lia|].
      rewrite Pos2Z.inj_mul, Z.pow_add_r by lia.
      pose proof (Zdigits2_ge_pow (Zpos p) ltac:(lia)) as G.
      cbn [Zdigits2] in G. rewrite digits2_pos_size in G. fold d in G.
      change (2 ^ 3) with 8. 
      assert (E : 2 ^ d = 2 * 2 ^ (d - 1)).
      { rewrite <- Z.pow_succ_r by lia. f_equal. lia. }
      lia.
    - apply size_upper; [lia|]. rewrite Pos2Z.inj_mul.
      change (2 ^ 23) with 8388608. lia. }
  unfold canopy_of_count, of_Z64.
  rewrite (of_Z_pos 53 1024 ltac:(lia) p ltac:(lia)) by (fold d; lia). fold d.
  change (of_Z 53 1024 262144) with (S754_finite false (pow2_mantissa 53) (-34)).
  change (of_Z 53 1024 100) with (S754_finite false 7036874417766400 (-46)).
  unfold div64. rewrite (SFdiv_pow2 53 1024 ltac:(lia)).
  2:{ unfold bounded, canonical_mantissa. apply andb_true_iff. split.
      - apply Z.eqb_eq. rewrite digits2_pos_size, size_shiftl. fold d.
        rewrite Z2N.id by lia. unfold fexp, emin. lia.
      - apply Z.leb_le. lia. }
  unfold mul64, SFmul. cbn [xorb].
  set (M := Pos.shiftl (25 * p) (Z.to_N (53 - D))).
  set (n := Z.to_N (D - d + 48)).
  assert (EM : (Pos.shiftl p (Z.to_N (53 - d)) * 7036874417766400)%positive
               = Pos.shiftl M n).
  { apply Pos2Z.inj. subst M n. rewrite Pos2Z.inj_mul, !Zpos_shiftl, Pos2Z.inj_mul.
    rewrite !Z2N.id by lia.
    change (Zpos 7036874417766400) with (25 * 2 ^ 48).
    assert (A : 2 ^ (53 - d) * 2 ^ 48 = 2 ^ (101 - d))
      by (rewrite <- Z.pow_add_r by lia; f_equal; lia).
    assert (B : 2 ^ (53 - D) * 2 ^ (D - d + 48) = 2 ^ (101 - d))
      by (rewrite <- Z.pow_add_r by lia; f_equal; lia).
    replace (Zpos p * 2 ^ (53 - d) * (25 * 2 ^ 48))
      with (25 * Zpos p * (2 ^ (53 - d) * 2 ^ 48)) by ring.
    replace (25 * Zpos p * 2 ^ (53 - D) * 2 ^ (D - d + 48))
      with (25 * Zpos p * (2 ^ (53 - D) * 2 ^ (D - d + 48))) by ring.
    rewrite A, B. reflexivity. }
  rewrite EM.
  replace (D - 69) with (d - 53 - -34 - (53 - 1) + -46 + Z.of_N n)
    by (subst n; rewrite Z2N.id by lia; lia).
  apply binary_round_aux_exact.
  replace (d - 53 - -34 - (53 - 1) + -46 + Z.of_N n) with (D - 69)
    by (subst n; rewrite Z2N.id by lia; lia).
  unfold bounded, canonical_mantissa. apply andb_true_iff. split.
  - apply Z.eqb_eq. subst M. rewrite digits2_pos_size, size_shiftl. fold D.
    rewrite Z2N.id by lia. unfold fexp, emin. lia.
  - apply Z.leb_le. lia.
Qed.

Lemma canopy_of_count_in_range k :
  0 <= k <= 262144 ->
  in_range zero64 hundred64 (canopy_of_count k 262144) = true.
Proof.
  intros [H0 H1]. destruct k as [|p|p]; [reflexivity| |lia].
  rewrite canopy_of_count_pos by exact H1. cbv zeta.
  assert (HD : Zpos (Pos.size (25 * p)) <= 23).
  { apply size_upper; [lia|]. rewrite Pos2Z.inj_mul. change (2 ^ 23) with 8388608. lia. }
  remember (Zpos (Pos.size (25 * p))) as D eqn:ED.
  unfold in_range, zero64, hundred64. cbn [SFleb SFcompare andb].
  destruct (Z.compare_spec (D - 69) (-46)) as [E|L|G]; [|reflexivity|lia].
  assert (HM : Zpos (Pos.shiftl (25 * p) (Z.to_N (53 - D))) <= 7036874417766400).
  { rewrite Zpos_shiftl, Pos2Z.inj_mul.
    replace (53 - D) with 30 by lia.
    change (Z.of_N (Z.to_N 30)) with 30. change (2 ^ 30) with 1073741824.
    clear - H1. lia. }
  remember (Pos.shiftl (25 * p) (Z.to_N (53 - D))) as M eqn:EM.
  destruct (Pos.compare_cont Eq M 7036874417766400) eqn:Cm; [reflexivity|reflexivity|].
  exfalso. assert (G1 : (M ?= 7036874417766400)%positive = Gt) by exact Cm.
  rewrite Pos.compare_gt_iff in G1. apply Pos2Z.pos_lt_pos in G1. clear - G1 HM. lia.
Qed.

(* ================================================================== *)
(** * Part III. The pipeline                                            *)
(* ================================================================== *)

(** ** estimate_biomass *)

Lemma bind_Return {A B} (c : outcome A) (k : A -> outcome B) b :
  bind c k = Return b -> exists a, c = Return a /\ k a = Return b.
Proof. destruct c as [a|e]; cbn; intros H; [eauto|discriminate]. Qed.

Lemma estimate_biomass_body_Return W model path md t a :
  estimate_biomass_body W model path md t = Return a ->
  exists img scaled row,
    preprocess_image W path = Return img /\
    scaled_features W img md = Return scaled /\
    getitem (extract_features W img md) 0 = Return row /\
    predict_biomass model (extract_features W img md) scaled
      = Return (biomass_estimate_kg_m2 a) /\
    image_path a = path /\
    timestamp a = now W t /\
    carbon_content_kg_m2 a = mul64 (biomass_estimate_kg_m2 a) carbon_fraction /\
    co2_equivalent_kg_m2 a = mul64 (carbon_content_kg_m2 a) co2_per_carbon /\
    confidence_score a = _calculate_confidence row.
Proof.
  unfold estimate_biomass_body. intros H.
  apply bind_Return in H. destruct H as (img & Hi & H).
  apply bind_Return in H. destruct H as (scaled & Hs & H).
  apply bind_Return in H. destruct H as (b & Hb & H).
  apply bind_Return in H. destruct H as (row & Hr & H).
  injection H as <-.
  cbn [biomass_estimate_kg_m2 carbon_content_kg_m2 co2_equivalent_kg_m2
       image_path timestamp confidence_score].
  exists img, scaled, row. repeat split; assumption.
Qed.

Lemma estimate_biomass_Analysis W model path md t a :
  fst (estimate_biomass W model path md t) = Analysis a ->
  estimate_biomass_body W model path md t = Return a.
Proof.
  unfold estimate_biomass. cbn [fst].
  destruct (estimate_biomass_body W model path md t) as [a'|e]; cbn; congruence.
Qed.

Lemma mul64_zero_l x c :
  is_zero x = true -> is_finite c = true -> is_zero (mul64 x c) = true.
Proof. destruct x, c; cbn; congruence. Qed.

(** C1. Whenever [estimate_biomass] returns an analysis, its carbon content
    is the biomass estimate times 0.47 and its CO2 equivalent is the carbon
    content times 3.67, as binary64 products; a zero biomass gives zero
    carbon and zero CO2. *)
Theorem estimate_biomass_carbon_co2 W model path md t a :
  fst (estimate_biomass W model path md t) = Analysis a ->
  carbon_content_kg_m2 a = mul64 (biomass_estimate_kg_m2 a) (decimal64 47 100) /\
  co2_equivalent_kg_m2 a = mul64 (carbon_content_kg_m2 a) (decimal64 367 100) /\
  (is_zero (biomass_estimate_kg_m2 a) = true ->
   is_zero (carbon_content_kg_m2 a) = true /\
   is_zero (co2_equivalent_kg_m2 a) = true).
Proof.
  intros H. apply estimate_biomass_Analysis, estimate_biomass_body_Return in H.
  destruct H as (img & scaled & row & _ & _ & _ & _ & _ & _ & Hc & Ho & _).
  change (decimal64 47 100) with carbon_fraction.
  change (decimal64 367 100) with co2_per_carbon.
  repeat split; try assumption.
  - rewrite Hc. apply mul64_zero_l; [assumption|reflexivity].
  - rewrite Ho, Hc. apply mul64_zero_l; [|reflexivity].
    apply mul64_zero_l; [assumption|reflexivity].
Qed.

Lemma estimate_biomass_carbon_co2_witness :
  exists a,
    fst (estimate_biomass example_world example_model "site_a.jpg" None 0) = Analysis a /\
    carbon_content_kg_m2 a = mul64 (biomass_estimate_kg_m2 a) (decimal64 47 100) /\
    co2_equivalent_kg_m2 a = mul64 (carbon_content_kg_m2 a) (decimal64 367 100).
Proof.
  eexists. split; [vm_compute; reflexivity|].
  split; apply (estimate_biomass_carbon_co2 example_world example_model
                  "site_a.jpg" None 0 _ ltac:(vm_compute; reflexivity)).
Defined.

(** C5. [estimate_biomass] always returns a dictionary: the analysis when
    the body of its [try] returns one, and otherwise the error-tagged result
    made from the exception, which carries the image path it was called with
    and the time of the call.  An image that cannot be loaded is one such
    case. *)
Theorem estimate_biomass_never_raises W model path md t :
  let r := fst (estimate_biomass W model path md t) in
  result_path r = path /\
  result_stamp r = now W t /\
  match estimate_biomass_body W model path md t with
  | Return a => r = Analysis a
  | Raise e => r = ErrorResult (str e) path (now W t)
  end /\
  match imread W path with
  | None => r = ErrorResult ("Could not load image from " ++ path) path (now W t)
  | Some _ => True
  end.
Proof.
  cbv zeta. unfold estimate_biomass. cbn [fst].
  destruct (estimate_biomass_body W model path md t) as [a|e] eqn:E; cbn.
  - apply estimate_biomass_body_Return in E.
    destruct E as (img & scaled & row & Hi & _ & _ & _ & Hp & Ht & _).
    repeat split; try assumption.
    unfold preprocess_image in Hi. destruct (imread W path); [exact I|discriminate].
  - repeat split.
    unfold estimate_biomass_body, preprocess_image in E.
    destruct (imread W path); [exact I|]. cbn in E. injection E as <-. reflexivity.
Qed.

(** ** analyze_multiple_images *)

Lemma analyze_loop_spec W model md paths : forall acc t,
  analyze_loop W model md paths acc t
  = (acc ++ valid_results (per_image_results W model md paths t),
     (t + length paths)%nat).
Proof.
  induction paths as [|p ps IH]; intros acc t; cbn [analyze_loop per_image_results].
  - cbn. rewrite app_nil_r. f_equal. lia.
  - unfold estimate_biomass at 1. rewrite IH. cbn [length].
    unfold valid_results. cbn [filter].
    unfold estimate_biomass at 2. cbn [fst].
    destruct (has_error _); cbn [negb]; [|rewrite <- app_assoc; cbn [app]];
      f_equal; lia.
Qed.

Lemma valid_results_no_error rs r :
  In r (valid_results rs) -> has_error r = false.
Proof.
  unfold valid_results. intros H. apply filter_In in H.
  destruct H as [_ H]. destruct (has_error r); [discriminate|reflexivity].
Qed.

Lemma analyses_of_valid rs : analyses_of (valid_results rs) = analyses_of rs.
Proof.
  induction rs as [|[a|e p s] rs IH]; cbn; [reflexivity| |exact IH].
  f_equal. exact IH.
Qed.

Lemma length_analyses_of rs :
  length (analyses_of rs) = length (valid_results rs).
Proof. induction rs as [|[a|e p s] rs IH]; cbn; [reflexivity| |exact IH]. f_equal. exact IH. Qed.

Lemma collect_valid get rs :
  collect get (valid_results rs) = Return (map get (analyses_of rs)).
Proof.
  induction rs as [|[a|e p s] rs IH]; cbn; [reflexivity| |exact IH].
  fold (valid_results rs). rewrite IH. reflexivity.
Qed.

Lemma summarize_nonempty v vs :
  exists s, summarize (v :: vs) = Return s /\
    Summary.mean s = np_mean 53 1024 (v :: vs) /\
    Summary.total s = np_sum 53 1024 (v :: vs).
Proof. eexists. split; [reflexivity|]. split; reflexivity. Qed.

Lemma length_filter_split {A} (p : A -> bool) l :
  (length (filter p l) + length (filter (fun x => negb (p x)) l) = length l)%nat.
Proof.
  induction l as [|x l IH]; cbn; [reflexivity|].
  destruct (p x); cbn; lia.
Qed.

(** What the aggregation returns, in terms of the per-image results. *)
Lemma analyze_multiple_images_spec W model paths md t :
  let rs := per_image_results W model md paths t in
  let valid := analyses_of rs in
  match valid_results rs with
  | [] =>
      analyze_multiple_images W model paths md t
      = BatchError "No valid analysis results"
  | _ :: _ =>
      exists biomass carbon co2,
        summarize (map biomass_estimate_kg_m2 valid) = Return biomass /\
        summarize (map carbon_content_kg_m2 valid) = Return carbon /\
        summarize (map co2_equivalent_kg_m2 valid) = Return co2 /\
        analyze_multiple_images W model paths md t
        = Aggregated
            {| total_images := length paths;
               valid_analyses := length (valid_results rs);
               biomass_summary := biomass;
               carbon_summary := carbon;
               co2_summary := co2;
               confidence_summary :=
                 {| ConfidenceSummary.mean :=
                      np_mean 53 1024 (map confidence_score valid);
                    ConfidenceSummary.std :=
                      np_std 53 1024 (map confidence_score valid) |};
               individual_results := valid_results rs;
               aggregate_timestamp := now W (t + length paths)%nat |}
  end.
Proof.
  cbv zeta. unfold analyze_multiple_images.
  rewrite analyze_loop_spec. cbn [app].
  set (rs := per_image_results W model md paths t).
  pose proof (length_analyses_of rs) as L.
  pose proof (collect_valid biomass_estimate_kg_m2 rs) as Cb.
  pose proof (collect_valid carbon_content_kg_m2 rs) as Cc.
  pose proof (collect_valid co2_equivalent_kg_m2 rs) as Co.
  pose proof (collect_valid confidence_score rs) as Cf.
  destruct (valid_results rs) as [|r0 rest] eqn:V; [reflexivity|].
  rewrite Cb, Cc, Co, Cf. cbn [bind].
  destruct (analyses_of rs) as [|a0 arest] eqn:A; [cbn in L; discriminate|].
  cbn [map].
  destruct (summarize_nonempty (biomass_estimate_kg_m2 a0)
              (map biomass_estimate_kg_m2 arest)) as (b & Hb & _).
  destruct (summarize_nonempty (carbon_content_kg_m2 a0)
              (map carbon_content_kg_m2 arest)) as (c & Hc & _).
  destruct (summarize_nonempty (co2_equivalent_kg_m2 a0)
              (map co2_equivalent_kg_m2 arest)) as (o & Ho & _).
  exists b, c, o. rewrite Hb, Hc, Ho. cbn [bind try_except].
  repeat split.
Qed.



(** The batch of the specification: one image that cannot be loaded and two
    that can. *)
Example batch_one_error_two_valid :
  exists agg,
    analyze_multiple_images example_world example_model
      ["missing.jpg"; "site_a.jpg"; "site_b.jpg"]%string None 0 = Aggregated agg /\
    map has_error (per_image_results example_world example_model None
                     ["missing.jpg"; "site_a.jpg"; "site_b.jpg"]%string 0)
    = [true; false; false] /\
    total_images agg = 3%nat /\
    valid_analyses agg = 2%nat /\
    Summary.total (biomass_summary agg) = of_Z64 24 /\
    Summary.mean (biomass_summary agg) = of_Z64 12.
Proof.
  eexists. split; [vm_compute; reflexivity|]. split; [vm_compute; reflexivity|].
  split; [reflexivity|]. split; [reflexivity|]. split; vm_compute; reflexivity.
Qed.

Example batch_all_errors :
  analyze_multiple_images example_world example_model
    ["missing.jpg"; "absent.png"]%string None 0
  = BatchError "No valid analysis results".
Proof. vm_compute. reflexivity. Qed.

Lemma analyze_multiple_images_Aggregated W model paths md t agg :
  analyze_multiple_images W model paths md t = Aggregated agg ->
  total_images agg = length paths /\
  valid_analyses agg = length (valid_results (per_image_results W model md paths t)) /\
  individual_results agg = valid_results (per_image_results W model md paths t).
Proof.
  intros H.
  pose proof (analyze_multiple_images_spec W model paths md t) as S. cbv zeta in S.
  destruct (valid_results (per_image_results W model md paths t)) as [|r0 rest] eqn:V.
  - congruence.
  - destruct S as (b & c & o & _ & _ & _ & HA). rewrite HA in H.
    injection H as <-. repeat split.
Qed.

(** C8, as the code has it.  The aggregate lists, in input order, the
    results that are not error-tagged; an error-tagged result is left out. *)
Theorem individual_results_are_the_valid_results W model paths md t agg :
  analyze_multiple_images W model paths md t = Aggregated agg ->
  individual_results agg
  = filter (fun r => negb (has_error r)) (per_image_results W model md paths t).
Proof. intros H. apply analyze_multiple_images_Aggregated in H. apply H. Qed.

Lemma individual_results_are_the_valid_results_witness :
  exists agg,
    analyze_multiple_images example_world example_model
      ["missing.jpg"; "site_a.jpg"]%string None 0 = Aggregated agg /\
    individual_results agg
    = filter (fun r => negb (has_error r))
        (per_image_results example_world example_model None
           ["missing.jpg"; "site_a.jpg"]%string 0).
Proof.
  eexists. split; [vm_compute; reflexivity|].
  apply (individual_results_are_the_valid_results example_world example_model
           ["missing.jpg"; "site_a.jpg"]%string None 0 _
           ltac:(vm_compute; reflexivity)).
Defined.

(** C8 as stated fails: the result of an image that could not be loaded is
    not in [individual_results]. *)
Lemma individual_results_omit_error_results :
  exists agg,
    analyze_multiple_images example_world example_model
      ["missing.jpg"; "site_a.jpg"]%string None 0 = Aggregated agg /\
    length (per_image_results example_world example_model None
              ["missing.jpg"; "site_a.jpg"]%string 0) = 2%nat /\
    length (individual_results agg) = 1%nat /\
    individual_results agg
    <> per_image_results example_world example_model None
         ["missing.jpg"; "site_a.jpg"]%string 0.
Proof.
  eexists. split; [vm_compute; reflexivity|].
  split; [reflexivity|]. split; [reflexivity|].
  intros H. apply (f_equal (@length result)) in H. vm_compute in H. discriminate.
Qed.

(** C10. In an aggregate, [valid_analyses] is the length of
    [individual_results] and at most [total_images], which is the number of
    input paths; the number of error-tagged results is their difference. *)
Theorem aggregate_counts W model paths md t agg :
  analyze_multiple_images W model paths md t = Aggregated agg ->
  valid_analyses agg = length (individual_results agg) /\
  (valid_analyses agg <= total_images agg)%nat /\
  total_images agg = length paths /\
  length (filter has_error (per_image_results W model md paths t))
  = (total_images agg - valid_analyses agg)%nat.
Proof.
  intros H. apply analyze_multiple_images_Aggregated in H.
  destruct H as (T & V & I).
  assert (Lp : length (per_image_results W model md paths t) = length paths).
  { clear. revert t. induction paths as [|p ps IH]; intros t; cbn; [reflexivity|].
    f_equal. apply IH. }
  pose proof (length_filter_split has_error (per_image_results W model md paths t)) as S.
  unfold valid_results in *. rewrite I, V, T. lia.
Qed.

Lemma aggregate_counts_witness :
  exists agg,
    analyze_multiple_images example_world example_model
      ["missing.jpg"; "site_a.jpg"; "site_b.jpg"]%string None 0 = Aggregated agg /\
    valid_analyses agg = length (individual_results agg) /\
    (valid_analyses agg <= total_images agg)%nat /\
    total_images agg = 3%nat.
Proof.
  eexists. split; [vm_compute; reflexivity|].
  pose proof (aggregate_counts example_world example_model
                ["missing.jpg"; "site_a.jpg"; "site_b.jpg"]%string None 0 _
                ltac:(vm_compute; reflexivity)) as H.
  destruct H as (A & B & C & _). repeat split; assumption.
Defined.

(** ** _calculate_fallback_biomass *)

Lemma weights_decimal :
  weights =
  [ decimal64 3 10; decimal64 1 10; decimal64 1 10; decimal64 2 10;
    decimal64 2 10; decimal64 1 10; decimal64 1 10; decimal64 2 10;
    decimal64 3 10; decimal64 4 10; decimal64 2 10; decimal64 1 10;
    decimal64 5 100; decimal64 5 100 ].
Proof. vm_compute. reflexivity. Qed.

Lemma products_nonneg f ws :
  forallb nonneg f = true -> forallb positive_finite ws = true ->
  forallb nonneg (map (fun p => mul64 (fst p) (snd p)) (combine f ws)) = true.
Proof.
  intros Hf Hw. rewrite forallb_forall in *. intros y Hy.
  apply in_map_iff in Hy. destruct Hy as ([x w] & <- & Hin). cbn [fst snd].
  pose proof (Hf x (in_combine_l _ _ _ _ Hin)) as Hx.
  pose proof (Hw w (in_combine_r _ _ _ _ Hin)) as Pw.
  destruct w as [| | |[] mw ew]; try discriminate.
  apply (SFmul_nonneg 53 1024); [lia|exact Hx].
Qed.

(** [np.sum] over fourteen numbers: eight accumulators combined as a tree,
    then the last six added in order. *)
Lemma np_sum_fourteen p0 p1 p2 p3 p4 p5 p6 p7 p8 p9 p10 p11 p12 p13 :
  np_sum 53 1024 [p0; p1; p2; p3; p4; p5; p6; p7; p8; p9; p10; p11; p12; p13]
  = add64 zero64
      (add64 (add64 (add64 (add64 (add64 (add64
         (add64 (add64 (add64 p0 p1) (add64 p2 p3))
                (add64 (add64 p4 p5) (add64 p6 p7)))
         p8) p9) p10) p11) p12) p13).
Proof.
  unfold np_sum, add64, zero64.
  cbn [pairwise_sum length Nat.leb block_sum unrolled_sum fold_left].
  reflexivity.
Qed.

(** C6. On fourteen non-negative features the fallback returns the weighted
    sum of the features with the fixed weights, added in NumPy's order and
    clamped to [0.1, 50.0]: the lower bound when the sum is at most 0.1, the
    sum itself strictly between the bounds, the upper bound otherwise; equal
    inputs give the same output. *)
Theorem fallback_biomass_clamped f :
  length f = 14%nat ->
  forallb nonneg f = true ->
  exists products b,
    np_multiply 53 1024 f weights = Return products /\
    products = map (fun p => mul64 (fst p) (snd p)) (combine f weights) /\
    _calculate_fallback_biomass f = Return b /\
    in_range (decimal64 1 10) (of_Z64 50) b = true /\
    (let s := np_sum 53 1024 products in
     (SFleb s (decimal64 1 10) = true -> b = decimal64 1 10) /\
     (SFltb (decimal64 1 10) s = true -> SFltb s (of_Z64 50) = true -> b = s) /\
     (SFltb (decimal64 1 10) s = true -> SFltb s (of_Z64 50) = false -> b = of_Z64 50)) /\
    (exists p0 p1 p2 p3 p4 p5 p6 p7 p8 p9 p10 p11 p12 p13,
       products = [p0; p1; p2; p3; p4; p5; p6; p7; p8; p9; p10; p11; p12; p13] /\
       np_sum 53 1024 products
       = add64 zero64
           (add64 (add64 (add64 (add64 (add64 (add64
              (add64 (add64 (add64 p0 p1) (add64 p2 p3))
                     (add64 (add64 p4 p5) (add64 p6 p7)))
              p8) p9) p10) p11) p12) p13)) /\
    (forall g, g = f -> _calculate_fallback_biomass g = Return b).
Proof.
  intros L Hf.
  change (decimal64 1 10) with biomass_lo. change (of_Z64 50) with biomass_hi.
  set (products := map (fun p => mul64 (fst p) (snd p)) (combine f weights)).
  assert (M : np_multiply 53 1024 f weights = Return products).
  { unfold np_multiply. rewrite L. reflexivity. }
  assert (S : is_nan (np_sum 53 1024 products) = false).
  { apply nonneg_not_nan, (np_sum_nonneg 53 1024); [lia|].
    apply products_nonneg; [exact Hf|reflexivity]. }
  assert (F : _calculate_fallback_biomass f
              = Return (np_clip (np_sum 53 1024 products) biomass_lo biomass_hi)).
  { unfold _calculate_fallback_biomass. rewrite M. reflexivity. }
  exists products, (np_clip (np_sum 53 1024 products) biomass_lo biomass_hi).
  split; [exact M|]. split; [reflexivity|]. split; [exact F|].
  split; [apply np_clip_in_range; [exact S|reflexivity..]|].
  split; [|split].
  - cbv zeta.
    destruct (np_clip_cases (np_sum 53 1024 products) biomass_lo biomass_hi
                _ _ _ _ _ _ eq_refl eq_refl S eq_refl) as (C1 & C2 & C3).
    split; [exact C1|]. split; [exact C2|exact C3].
  - subst products. clear - L.
    do 14 (destruct f as [|? f]; [discriminate|]).
    destruct f; [|discriminate].
    cbn [weights combine map fst snd].
    do 14 eexists. split; [reflexivity|]. apply np_sum_fourteen.
  - intros g ->. exact F.
Qed.

(** Fourteen features equal to 2.0: the products add up to
    4.800000000000001, where adding them from left to right gives 4.8. *)
Lemma fallback_biomass_clamped_witness :
  exists b,
    _calculate_fallback_biomass (repeat (of_Z64 2) 14) = Return b /\
    in_range (decimal64 1 10) (of_Z64 50) b = true /\
    b = S754_finite false 5404319552844596 (-50).
Proof.
  destruct (fallback_biomass_clamped (repeat (of_Z64 2) 14) eq_refl eq_refl)
    as (products & b & _ & _ & F & R & _).
  exists b. split; [exact F|]. split; [exact R|].
  assert (E : _calculate_fallback_biomass (repeat (of_Z64 2) 14)
              = Return (S754_finite false 5404319552844596 (-50)))
    by (vm_compute; reflexivity).
  rewrite E in F. injection F as <-. reflexivity.
Defined.

(** ** _calculate_confidence *)

Lemma py_min_one q :
  is_nan q = false ->
  is_nan (py_min q one64) = false /\ py_min q one64 <> S754_infinity false.
Proof.
  unfold py_min. intros H.
  destruct (SFltb one64 q) eqn:E.
  - split; [reflexivity|discriminate].
  - split; [exact H|]. intros ->. discriminate E.
Qed.

Lemma div64_hundred_finite x :
  finite64 x = true -> is_finite (div64 x hundred64) = true.
Proof.
  unfold finite64. intros H. apply andb_true_iff in H. destruct H as [F V].
  destruct x as [s|s| |s m e]; try discriminate; [reflexivity|].
  apply (SFdiv_finite 53 1024); [lia|exact V|]. cbn. lia.
Qed.

Lemma finite64_not_nan x : finite64 x = true -> is_nan x = false.
Proof. destruct x; cbn; congruence. Qed.

Lemma is_finite_not_nan x : is_finite x = true -> is_nan x = false.
Proof. destruct x; cbn; congruence. Qed.

Lemma getitem_lt {A} (l : list A) i :
  (i < length l)%nat -> exists x, getitem l i = Return x /\ In x l.
Proof.
  intros H. unfold getitem. destruct (nth_error l i) eqn:E.
  - eexists. split; [reflexivity|]. eapply nth_error_In, E.
  - apply nth_error_None in E. lia.
Qed.

Lemma getitem_ge {A} (l : list A) i :
  (length l <= i)%nat -> exists e, getitem l i = Raise e.
Proof.
  intros H. unfold getitem. apply nth_error_None in H. rewrite H. eauto.
Qed.

(** C7. On fourteen finite features the confidence lies in [0, 1]; on the
    all-zero vector it is 0; and when a feature it reads is missing, the
    failure inside is answered with the neutral 0.5. *)
Theorem confidence_in_unit_interval :
  (forall f, length f = 14%nat -> forallb finite64 f = true ->
     in_range zero64 one64 (_calculate_confidence f) = true) /\
  _calculate_confidence (repeat zero64 14) = zero64 /\
  (forall f, (length f < 10)%nat -> _calculate_confidence f = decimal64 5 10).
Proof.
  split; [|split].
  - intros f L Hf. rewrite forallb_forall in Hf.
    destruct (getitem_lt f 0 ltac:(lia)) as (f0 & G0 & I0).
    destruct (getitem_lt f 4 ltac:(lia)) as (f4 & G4 & I4).
    destruct (getitem_lt f 9 ltac:(lia)) as (f9 & G9 & I9).
    unfold _calculate_confidence. rewrite G0. cbn [bind]. rewrite G4. cbn [bind].
    rewrite G9. cbn [bind try_except].
    apply np_clip_in_range; try reflexivity.
    assert (Q0 : is_nan (div64 f0 half) = false)
      by (apply (SFdiv_not_nan 53 1024); [lia|apply finite64_not_nan, Hf, I0]).
    assert (Q4 : is_nan (div64 f4 hundred64) = false)
      by (apply (SFdiv_not_nan 53 1024); [lia|apply finite64_not_nan, Hf, I4]).
    destruct (py_min_one _ Q0) as [N0 P0]. destruct (py_min_one _ Q4) as [N4 P4].
    apply (SFdiv_not_nan 53 1024); [lia|].
    apply (SFadd_not_nan 53 1024); [lia| |apply div64_hundred_finite, Hf, I9].
    apply (SFadd_not_nan_below 53 1024); [lia|assumption..].
  - vm_compute. reflexivity.
  - intros f L.
    destruct (getitem_ge f 9 ltac:(lia)) as (e9 & G9).
    unfold _calculate_confidence.
    destruct (getitem f 0) as [f0|e0]; cbn [bind try_except]; [|reflexivity].
    destruct (getitem f 4) as [f4|e4]; cbn [bind try_except]; [|reflexivity].
    rewrite G9. reflexivity.
Qed.

Lemma confidence_in_unit_interval_witness :
  in_range zero64 one64
    (_calculate_confidence (repeat (of_Z64 40) 14)) = true /\
  _calculate_confidence [zero64; zero64; zero64] = decimal64 5 10.
Proof.
  split.
  - apply (proj1 confidence_in_unit_interval (repeat (of_Z64 40) 14) eq_refl eq_refl).
  - apply (proj2 (proj2 confidence_in_unit_interval) [zero64; zero64; zero64]).
    cbn. lia.
Defined.

(** ** calculate_ndvi *)

Lemma evi_pixel_zero_denominator p :
  is_zero (evi_denominator p) = true -> is_finite (evi_pixel p) = false.
Proof. intros H. unfold evi_pixel, div32. apply SFdiv_zero_divisor, H. Qed.

Lemma calculate_ndvi_nonempty img p ps :
  pixels img = p :: ps ->
  ndvi_min (calculate_ndvi img)
  = to_f64 (fold_left np_minimum (map evi_pixel ps) (evi_pixel p)) /\
  ndvi_max (calculate_ndvi img)
  = to_f64 (fold_left np_maximum (map evi_pixel ps) (evi_pixel p)).
Proof. intros H. unfold calculate_ndvi. rewrite H. split; reflexivity. Qed.

(** C3.  The code misses the guard.  The zero-valued fallback is in the
    handler of [calculate_ndvi], but NumPy's division by zero raises
    nothing: whenever the EVI denominator is zero at some pixel, the EVI
    there is an infinity or a NaN, the statistics are computed from it,
    [ndvi_min] or [ndvi_max] is not finite and the result is not the
    fallback. *)
Theorem calculate_ndvi_zero_denominator_unguarded img :
  existsb (fun p => is_zero (evi_denominator p)) (pixels img) = true ->
  (is_finite (ndvi_min (calculate_ndvi img)) = false \/
   is_finite (ndvi_max (calculate_ndvi img)) = false) /\
  calculate_ndvi img <> ndvi_fallback.
Proof.
  intros H.
  assert (N : is_finite (ndvi_min (calculate_ndvi img)) = false \/
              is_finite (ndvi_max (calculate_ndvi img)) = false).
  { destruct (pixels img) as [|p ps] eqn:P; [discriminate|].
    destruct (calculate_ndvi_nonempty img p ps P) as [-> ->].
    assert (E : existsb (fun y => negb (is_finite y))
                  (evi_pixel p :: map evi_pixel ps) = true).
    { apply existsb_exists in H. destruct H as (q & Hq & Zq).
      apply existsb_exists. exists (evi_pixel q). split.
      - change (evi_pixel p :: map evi_pixel ps) with (map evi_pixel (p :: ps)).
        apply in_map, Hq.
      - rewrite evi_pixel_zero_denominator by exact Zq. reflexivity. }
    destruct (extrema_not_finite _ _ E) as [L|R]; [left|right];
      apply to_f64_not_finite; assumption. }
  split; [exact N|]. intros F. rewrite F in N. destruct N; discriminate.
Qed.

(** The failing input: the dark blue pixel R=0, G=0, B=34 has the
    denominator [0 + 6*0 - 7.5*(34/255) + 1 = 0] in binary32. *)
Lemma calculate_ndvi_zero_denominator_unguarded_witness :
  (is_finite (ndvi_min (calculate_ndvi glint_normalized)) = false \/
   is_finite (ndvi_max (calculate_ndvi glint_normalized)) = false) /\
  calculate_ndvi glint_normalized <> ndvi_fallback.
Proof.
  apply (calculate_ndvi_zero_denominator_unguarded glint_normalized).
  vm_compute. reflexivity.
Defined.

(** The image that contains the pixel is preprocessed without an error and
    gets NaN for all four statistics. *)
Lemma calculate_ndvi_zero_denominator_not_fallback :
  preprocess_image example_world "glint.jpg" = Return glint_normalized /\
  existsb (fun p => is_zero (evi_denominator p)) (pixels glint_normalized) = true /\
  calculate_ndvi glint_normalized
  = {| ndvi_mean := S754_nan; ndvi_std := S754_nan;
       ndvi_min := S754_nan; ndvi_max := S754_nan |} /\
  calculate_ndvi glint_normalized <> ndvi_fallback.
Proof.
  split; [vm_compute; reflexivity|]. split; [vm_compute; reflexivity|].
  split; [vm_compute; reflexivity|]. vm_compute. discriminate.
Qed.

(** ** calculate_canopy_cover and estimate_species_diversity *)

Lemma canonical_nonempty img :
  canonical img -> exists p ps, pixels img = p :: ps.
Proof.
  intros (_ & _ & L & _). destruct (pixels img) as [|p ps]; [discriminate|eauto].
Qed.

Lemma filter_length_bound {A} (f : A -> bool) l :
  (length (filter f l) <= length l)%nat.
Proof. induction l as [|x l IH]; cbn; [lia|]. destruct (f x); cbn; lia. Qed.

Lemma calculate_canopy_cover_canonical W img :
  canonical img ->
  in_range zero64 (of_Z64 100) (calculate_canopy_cover W img) = true.
Proof.
  intros C. destruct (canonical_nonempty img C) as (p & ps & P).
  destruct C as (S0 & S1 & L & _).
  unfold calculate_canopy_cover, cvtColor. rewrite P.
  cbn [bind try_except map_image shape0 shape1 pixels].
  rewrite S0, S1. change (512 * 512) with 262144 in *.
  set (mask := map (fun q => inRange W q lower_green upper_green)
                 (map (rgb2hsv W) (pixels img))).
  pose proof (filter_length_bound (fun b : bool => b) mask) as B.
  assert (Lm : length mask = length (pixels img))
    by (subst mask; rewrite !length_map; reflexivity).
  apply canopy_of_count_in_range. lia.
Qed.

Lemma clip_unit_to_f64 d :
  nonneg d = true -> fits 24 128 d ->
  in_range zero64 one64 (to_f64 (np_clip d (of_Z32 0) (of_Z32 1))) = true.
Proof.
  intros N F. pose proof (nonneg_not_nan d N) as Nan.
  assert (O : of_Z32 1 = S754_finite false 8388608 (-23)) by (vm_compute; reflexivity).
  change (of_Z32 0) with (S754_zero false).
  unfold np_clip. rewrite O. cbn [is_nan orb]. cbv zeta.
  unfold nonneg in N. rewrite (SFleb_not_ltb _ _ N).
  destruct (SFltb (S754_finite false 8388608 (-23)) d) eqn:E1;
    [vm_compute; reflexivity|].
  pose proof (SFltb_false_leb (S754_finite false 8388608 (-23)) d eq_refl Nan E1) as L.
  destruct (SFleb_cases _ _ L) as [Lt|Eq].
  - destruct d as [[]|[]| |[] m e]; try discriminate; try reflexivity.
    apply to_f64_below_one; [exact F|]. rewrite O. exact Lt.
  - apply SFcompare_Eq_finite in Eq. subst d. vm_compute. reflexivity.
Qed.

Lemma channel_finite (W : world) (chan : pixel -> f32) (l : list pixel) :
  (forall q, finite_pixel q = true -> is_finite (chan q) = true) ->
  (forall p, unit_pixel p = true -> finite_pixel (rgb2lab W p) = true) ->
  forallb unit_pixel l = true ->
  forallb is_finite (map chan (map (rgb2lab W) l)) = true.
Proof.
  intros Hc Hl Hu. rewrite forallb_forall in *. intros y Hy.
  apply in_map_iff in Hy. destruct Hy as (q & <- & Hq).
  apply in_map_iff in Hq. destruct Hq as (p & <- & Hp).
  apply Hc, Hl, Hu, Hp.
Qed.

Lemma finite_pixel_chan0 q : finite_pixel q = true -> is_finite (chan0 q) = true.
Proof.
  unfold finite_pixel. intros H. apply andb_true_iff in H. destruct H as [H _].
  apply andb_true_iff in H. apply H.
Qed.

Lemma finite_pixel_chan1 q : finite_pixel q = true -> is_finite (chan1 q) = true.
Proof.
  unfold finite_pixel. intros H. apply andb_true_iff in H. destruct H as [H _].
  apply andb_true_iff in H. apply H.
Qed.

Lemma finite_pixel_chan2 q : finite_pixel q = true -> is_finite (chan2 q) = true.
Proof.
  unfold finite_pixel. intros H. apply andb_true_iff in H. apply H.
Qed.

Lemma estimate_species_diversity_canonical W img :
  canonical img ->
  (forall p, unit_pixel p = true -> finite_pixel (rgb2lab W p) = true) ->
  in_range zero64 one64 (estimate_species_diversity W img) = true.
Proof.
  intros C Lab. destruct (canonical_nonempty img C) as (p & ps & P).
  destruct C as (_ & _ & L & U).
  unfold estimate_species_diversity, cvtColor. rewrite P.
  cbn [bind try_except].
  apply clip_unit_to_f64; unfold diversity_score, div32;
    change (of_Z32 255) with (S754_finite false 16711680 (-16));
    [|apply (SFdiv_fits 24 128); lia].
  apply (SFdiv_nonneg 24 128); [lia|].
  unfold np_mean.
  change (np_size 24 128 (color_variance (map_image (rgb2lab W) img)))
    with (S754_finite false 12582912 (-22)).
  apply (SFdiv_nonneg 24 128); [lia|].
  apply (np_sum_nonneg 24 128); [lia|].
  assert (Sz : forall chan : pixel -> f32,
             np_size 24 128 (map chan (map (rgb2lab W) (pixels img)))
             = S754_finite false 8388608 (-5)).
  { intros chan. unfold np_size. rewrite !length_map, L. reflexivity. }
  unfold color_variance. cbn [map_image pixels forallb].
  rewrite (np_var_axis_nonneg 24 128 ltac:(lia) _ _ _ (Sz chan0))
    by (apply channel_finite; [apply finite_pixel_chan0|exact Lab|exact U]).
  rewrite (np_var_axis_nonneg 24 128 ltac:(lia) _ _ _ (Sz chan1))
    by (apply channel_finite; [apply finite_pixel_chan1|exact Lab|exact U]).
  rewrite (np_var_axis_nonneg 24 128 ltac:(lia) _ _ _ (Sz chan2))
    by (apply channel_finite; [apply finite_pixel_chan2|exact Lab|exact U]).
  reflexivity.
Qed.

(** C9. On an image of the canonical normalized size the canopy cover lies
    in [0, 100] and the diversity score in [0, 1]; for the latter the Lab
    conversion is taken to give finite channels on normalized pixels. *)
Theorem canopy_cover_and_diversity_ranges W img :
  canonical img ->
  (forall p, unit_pixel p = true -> finite_pixel (rgb2lab W p) = true) ->
  in_range zero64 (of_Z64 100) (calculate_canopy_cover W img) = true /\
  in_range zero64 one64 (estimate_species_diversity W img) = true.
Proof.
  intros C Lab. split.
  - apply calculate_canopy_cover_canonical, C.
  - apply estimate_species_diversity_canonical; assumption.
Qed.

Lemma forallb_repeat {A} (f : A -> bool) x n :
  f x = true -> forallb f (repeat x n) = true.
Proof. intros H. induction n as [|n IH]; cbn; [reflexivity|]. rewrite H, IH. reflexivity. Qed.

Lemma unit_pixel_finite p : unit_pixel p = true -> finite_pixel p = true.
Proof.
  unfold unit_pixel, finite_pixel, unit_channel. intros H.
  repeat (apply andb_true_iff in H; destruct H as [H ?]).
  repeat (match goal with X : _ && _ = true |- _ =>
            apply andb_true_iff in X; destruct X as [X ?] end).
  repeat (apply andb_true_iff; split); assumption.
Qed.

Lemma grey_canvas_canonical : canonical grey_canvas.
Proof.
  unfold canonical, grey_canvas. cbn [shape0 shape1 pixels].
  split; [reflexivity|]. split; [reflexivity|]. split.
  - rewrite repeat_length. apply Z2Nat.id. lia.
  - apply forallb_repeat. vm_compute. reflexivity.
Qed.

Lemma canopy_cover_and_diversity_ranges_witness :
  in_range zero64 (of_Z64 100) (calculate_canopy_cover example_world grey_canvas) = true /\
  in_range zero64 one64 (estimate_species_diversity example_world grey_canvas) = true.
Proof.
  apply (canopy_cover_and_diversity_ranges example_world grey_canvas
           grey_canvas_canonical).
  intros p H. apply unit_pixel_finite, H.
Defined.

(** ** StandardScaler on one sample *)

Lemma SFsub_diag_finite prec emax s m e :
  SFsub prec emax (S754_finite s m e) (S754_finite s m e) = S754_zero false.
Proof. cbn [SFsub]. rewrite Z.sub_diag. reflexivity. Qed.

Lemma np_mean_axis_single x :
  finite64 x = true -> is_zero x = false -> np_mean_axis 53 1024 [x] = x.
Proof.
  unfold finite64. intros H Z. apply andb_true_iff in H. destruct H as [F V].
  destruct x as [s|s| |s m e]; try discriminate.
  unfold np_mean_axis, np_sum_axis. cbn [fold_left SFadd].
  change (np_size 53 1024 [S754_finite s m e])
    with (S754_finite false (pow2_mantissa 53) (- (53 - 1))).
  apply (SFdiv_one 53 1024); [lia|exact V].
Qed.

Lemma np_mean_single x :
  finite64 x = true -> is_zero x = false -> np_mean 53 1024 [x] = x.
Proof.
  unfold finite64. intros H Z. apply andb_true_iff in H. destruct H as [F V].
  destruct x as [s|s| |s m e]; try discriminate.
  unfold np_mean. rewrite np_sum_single. cbn [SFadd].
  change (np_size 53 1024 [S754_finite s m e])
    with (S754_finite false (pow2_mantissa 53) (- (53 - 1))).
  apply (SFdiv_one 53 1024); [lia|exact V].
Qed.

(** A column that holds one finite value is mapped to zero. *)
Lemma standardize_single x :
  finite64 x = true -> is_zero (standardize [x] x) = true.
Proof.
  intros H. destruct x as [s|s| |s m e]; try discriminate.
  - destruct s; vm_compute; reflexivity.
  - pose proof (np_mean_axis_single _ H eq_refl) as M.
    unfold standardize, scaler_mean, scaler_scale, np_std_axis, np_var_axis, present.
    cbn [filter is_nan negb]. cbv zeta. unfold f64 in *. rewrite M. cbn [map].
    unfold sub64. rewrite SFsub_diag_finite. reflexivity.
Qed.

Lemma combine_seq_nth {A} (l : list A) d : forall s j x,
  In (j, x) (combine (seq s (length l)) l) -> nth (j - s) l d = x.
Proof.
  induction l as [|y l IH]; intros s j x H; cbn in H; [contradiction|].
  destruct H as [E|H].
  - injection E as <- <-. rewrite Nat.sub_diag. reflexivity.
  - pose proof (in_combine_l _ _ _ _ H) as Hj. apply in_seq in Hj.
    specialize (IH (S s) j x H).
    replace (j - s)%nat with (S (j - S s)) by lia. exact IH.
Qed.

Lemma transform_row_single row :
  forallb finite64 row = true ->
  forallb is_zero (transform_row [row] row) = true /\
  length (transform_row [row] row) = length row.
Proof.
  intros H. unfold transform_row. split.
  - rewrite forallb_forall in *. intros z Hz.
    apply in_map_iff in Hz. destruct Hz as ([j x] & <- & Hin). cbn [fst snd].
    pose proof (combine_seq_nth row S754_nan 0%nat j x Hin) as N.
    rewrite Nat.sub_0_r in N.
    unfold column. cbn [map]. unfold f64 in *. rewrite N.
    apply standardize_single, H. eapply in_combine_r, Hin.
  - rewrite length_map, length_combine, length_seq. lia.
Qed.

Lemma finite64_not_inf row :
  forallb finite64 row = true -> existsb is_inf row = false.
Proof.
  induction row as [|x row IH]; cbn; [reflexivity|]. intros H.
  apply andb_true_iff in H. destruct H as [Hx Hr]. rewrite (IH Hr).
  destruct x; cbn in *; congruence.
Qed.

Lemma extract_features_shape W img md :
  exists row, extract_features W img md = [row] /\ length row = 14%nat.
Proof. eexists. split; reflexivity. Qed.

(** C2, as the code has it.  The scaler is fit on the one row it is given:
    when the fourteen extracted features are all finite, every scaled
    feature that reaches the backend is zero. *)
Theorem scaled_features_are_zero W img md row :
  extract_features W img md = [row] ->
  forallb finite64 row = true ->
  exists zs,
    scaled_features W img md = Return [zs] /\
    length zs = 14%nat /\
    forallb is_zero zs = true.
Proof.
  intros E F. destruct (extract_features_shape W img md) as (row' & E' & L).
  assert (row' = row) by congruence. subst row'.
  destruct (transform_row_single row F) as [Z Lz].
  exists (transform_row [row] row).
  unfold scaled_features, fit_transform. rewrite E.
  cbn [existsb map]. rewrite (finite64_not_inf row F). cbn [orb].
  repeat split; [congruence|exact Z].
Qed.

Lemma scaled_features_are_zero_witness :
  exists row zs,
    extract_features example_world site_a_normalized None = [row] /\
    forallb finite64 row = true /\
    scaled_features example_world site_a_normalized None = Return [zs] /\
    forallb is_zero zs = true.
Proof.
  exists (hd [] (extract_features example_world site_a_normalized None)).
  destruct (scaled_features_are_zero example_world site_a_normalized None
              (hd [] (extract_features example_world site_a_normalized None))
              eq_refl ltac:(vm_compute; reflexivity)) as (zs & S & _ & Z).
  exists zs. split; [reflexivity|]. split; [vm_compute; reflexivity|].
  split; assumption.
Defined.

(** C2 as stated fails: the features extracted from the image with the dark
    blue pixel have NaN vegetation statistics, and the scaled features that
    reach the backend are NaN there, not zero. *)
Lemma scaled_features_keep_nan :
  preprocess_image example_world "glint.jpg" = Return glint_normalized /\
  scaled_features example_world glint_normalized None
  = Return [ [ S754_nan; S754_nan; S754_nan; S754_nan;
               zero64; zero64; zero64; zero64; zero64; zero64; zero64;
               zero64; zero64; zero64 ] ].
Proof. split; vm_compute; reflexivity. Qed.

(* ================================================================== *)
(** * Part IV. The rest of the module                                   *)
(* ================================================================== *)

(** ** preprocess_image *)

Lemma normalize_channel_unit v :
  uint8 v = true -> unit_channel (normalize_channel v) = true.
Proof.
  unfold uint8. intros H. apply andb_true_iff in H. destruct H as [H0 H1].
  apply Z.leb_le in H0. apply Z.leb_le in H1.
  assert (T : forallb (fun k => unit_channel (normalize_channel (Z.of_nat k)))
                (seq 0 256) = true) by (vm_compute; reflexivity).
  rewrite forallb_forall in T. specialize (T (Z.to_nat v)).
  rewrite Z2Nat.id in T by lia. apply T. apply in_seq. lia.
Qed.

Lemma normalize_pixel_unit p :
  uint8_pixel p = true -> unit_pixel (normalize_pixel p) = true.
Proof.
  destruct p as [[a b] c]. unfold uint8_pixel, unit_pixel, normalize_pixel.
  cbn [chan0 chan1 chan2 fst snd]. intros H.
  apply andb_true_iff in H. destruct H as [H Hc].
  apply andb_true_iff in H. destruct H as [Ha Hb].
  rewrite !normalize_channel_unit by assumption. reflexivity.
Qed.

Lemma forallb_map {A B} (f : B -> bool) (g : A -> B) l :
  forallb f (map g l) = forallb (fun x => f (g x)) l.
Proof. induction l as [|x l IH]; cbn; [reflexivity|]. rewrite IH. reflexivity. Qed.

Lemma forallb_impl {A} (f g : A -> bool) l :
  (forall x, f x = true -> g x = true) ->
  forallb f l = true -> forallb g l = true.
Proof.
  intros I. induction l as [|x l IH]; cbn; [reflexivity|]. intros H.
  apply andb_true_iff in H. destruct H as [Hx Hl].
  rewrite (I _ Hx), (IH Hl). reflexivity.
Qed.

(** X1.  When the file decodes to a non-empty image and the resize gives
    the 512 by 512 canvas of unsigned bytes that was asked for,
    [preprocess_image] returns an image of the canonical normalized size:
    512 by 512 pixels, every channel a finite binary32 number between 0
    and 1. *)
Theorem preprocess_image_canonical W path raw resized :
  imread W path = Some raw ->
  pixels raw <> [] ->
  resize W (map_image bgr2rgb raw) 512 512 = Return resized ->
  shape0 resized = 512 -> shape1 resized = 512 ->
  Z.of_nat (length (pixels resized)) = 512 * 512 ->
  forallb uint8_pixel (pixels resized) = true ->
  exists img, preprocess_image W path = Return img /\ canonical img.
Proof.
  intros Hr Hne Hz S0 S1 L U. unfold preprocess_image. rewrite Hr.
  unfold cvtColor. destruct (pixels raw) as [|p ps] eqn:P; [congruence|].
  cbn [bind]. rewrite Hz. cbn [bind]. eexists. split; [reflexivity|].
  unfold canonical, map_image. cbn [shape0 shape1 pixels].
  split; [exact S0|]. split; [exact S1|]. split.
  - rewrite length_map. exact L.
  - rewrite forallb_map. revert U. apply forallb_impl.
    intros x Hx. apply normalize_pixel_unit, Hx.
Qed.

Lemma preprocess_image_canonical_witness :
  exists img, preprocess_image canvas_world "site_a.jpg" = Return img /\ canonical img.
Proof.
  apply (preprocess_image_canonical canvas_world "site_a.jpg" site_a
           {| shape0 := 512; shape1 := 512;
              pixels := repeat (40, 120, 30) (Z.to_nat (512 * 512)) |}).
  - reflexivity.
  - discriminate.
  - reflexivity.
  - reflexivity.
  - reflexivity.
  - cbn [pixels]. rewrite repeat_length. apply Z2Nat.id. lia.
  - cbn [pixels]. apply forallb_repeat. reflexivity.
Defined.

(** ** estimate_vegetation_height *)

Lemma filter_none {A} (f : A -> bool) l :
  existsb f l = false -> filter f l = [].
Proof.
  induction l as [|x l IH]; cbn; [reflexivity|]. intros H.
  apply orb_false_iff in H. destruct H as [Hx Hl]. rewrite Hx. exact (IH Hl).
Qed.

(** X2.  When the contour search fails, or finds no contour whose area is
    above 100 (an area of exactly 100 does not pass), the four height
    statistics are the zero fallback. *)
Theorem height_zero_below_threshold W img :
  (forall cs, findContours W img = Return cs -> existsb above_threshold cs = false) ->
  estimate_vegetation_height W img = height_fallback.
Proof.
  intros H. unfold estimate_vegetation_height.
  destruct (findContours W img) as [cs|e]; [|reflexivity].
  cbn [bind]. fold above_threshold.
  change (fun c : contour => SFltb (of_Z64 100) (contourArea c)) with above_threshold.
  rewrite (filter_none _ _ (H cs eq_refl)). vm_compute. reflexivity.
Qed.

Lemma height_zero_below_threshold_witness :
  estimate_vegetation_height quiet_world site_a_normalized = height_fallback.
Proof.
  apply (height_zero_below_threshold quiet_world site_a_normalized).
  intros cs H. injection H as <-. vm_compute. reflexivity.
Defined.

Lemma fold_minimum_in t : forall x, In (fold_left np_minimum t x) (x :: t).
Proof.
  induction t as [|y t IH]; intros x; cbn [fold_left]; [left; reflexivity|].
  destruct (IH (np_minimum x y)) as [E|I].
  - rewrite <- E. unfold np_minimum.
    destruct (SFleb x y || is_nan x); [left|right; left]; reflexivity.
  - right. right. exact I.
Qed.

Lemma fold_maximum_in t : forall x, In (fold_left np_maximum t x) (x :: t).
Proof.
  induction t as [|y t IH]; intros x; cbn [fold_left]; [left; reflexivity|].
  destruct (IH (np_maximum x y)) as [E|I].
  - rewrite <- E. unfold np_maximum.
    destruct (SFleb y x || is_nan x); [left|right; left]; reflexivity.
  - right. right. exact I.
Qed.


(** ** _calculate_confidence *)

Lemma np_clip_nan x lo hi : is_nan x = true -> is_nan (np_clip x lo hi) = true.
Proof.
  destruct x; try discriminate. intros _. unfold np_clip.
  destruct (is_nan lo || is_nan hi); [reflexivity|].
  cbn [SFltb SFcompare]. destruct hi; reflexivity.
Qed.

Lemma np_clip_range_or_nan x lo hi :
  SFleb lo lo = true -> SFleb hi hi = true -> SFleb lo hi = true ->
  is_nan (np_clip x lo hi) = true \/ in_range lo hi (np_clip x lo hi) = true.
Proof.
  intros H1 H2 H3. destruct (is_nan x) eqn:N.
  - left. apply np_clip_nan, N.
  - right. apply np_clip_in_range; assumption.
Qed.

(** X4.  Whatever the feature vector (any length, NaNs and infinities
    included), [_calculate_confidence] returns a NaN or a number between 0
    and 1: it never raises and never returns a number outside the unit
    interval. *)
Theorem confidence_unit_or_nan f :
  is_nan (_calculate_confidence f) = true \/
  in_range zero64 one64 (_calculate_confidence f) = true.
Proof.
  unfold _calculate_confidence.
  destruct (getitem f 0) as [f0|e]; [|right; reflexivity].
  destruct (getitem f 4) as [f4|e]; [|right; reflexivity].
  destruct (getitem f 9) as [f9|e]; [|right; reflexivity].
  cbn [bind try_except]. apply np_clip_range_or_nan; reflexivity.
Qed.

Lemma SFadd_nan_r prec emax x : SFadd prec emax x S754_nan = S754_nan.
Proof. destruct x; reflexivity. Qed.

Lemma confidence_nan (f : list spec_float) f0 f4 f9 :
  nth_error f 0 = Some f0 -> nth_error f 4 = Some f4 -> nth_error f 9 = Some f9 ->
  is_nan f0 || is_nan f4 || is_nan f9 = true ->
  is_nan (_calculate_confidence f) = true.
Proof.
  intros H0 H4 H9 N. unfold _calculate_confidence, getitem.
  unfold f64 in *. rewrite H0, H4, H9. cbn [bind try_except]. apply np_clip_nan.
  apply orb_true_iff in N. destruct N as [N|N].
  - apply orb_true_iff in N. destruct N as [N|N].
    + destruct f0; try discriminate.
      change (py_min (div64 S754_nan half) one64) with S754_nan.
      reflexivity.
    + destruct f4; try discriminate.
      change (py_min (div64 S754_nan hundred64) one64) with S754_nan.
      unfold add64. rewrite SFadd_nan_r. reflexivity.
  - destruct f9; try discriminate.
    change (div64 S754_nan hundred64) with S754_nan.
    unfold add64. rewrite SFadd_nan_r. reflexivity.
Qed.

(** X5.  A NaN in the NDVI mean (feature 0), the height mean (feature 4)
    or the canopy cover (feature 9) makes the confidence a NaN: the
    exception handler with its neutral 0.5 is not reached. *)
Theorem confidence_nan_feature f f0 f4 f9 :
  nth_error f 0 = Some f0 -> nth_error f 4 = Some f4 -> nth_error f 9 = Some f9 ->
  is_nan f0 || is_nan f4 || is_nan f9 = true ->
  is_nan (_calculate_confidence f) = true.
Proof. exact (confidence_nan f f0 f4 f9). Qed.

Lemma confidence_nan_feature_witness :
  is_nan (_calculate_confidence
            (S754_nan :: repeat (of_Z64 1) 13)) = true.
Proof.
  apply (confidence_nan_feature (S754_nan :: repeat (of_Z64 1) 13)
           S754_nan (of_Z64 1) (of_Z64 1)); reflexivity.
Defined.

(** ** _calculate_fallback_biomass *)

Lemma np_multiply_weights f :
  length f = 14%nat \/ length f = 1%nat ->
  exists products, np_multiply 53 1024 f weights = Return products.
Proof.
  intros [H|H]; unfold np_multiply.
  - rewrite H. cbn [length weights Nat.eqb]. eexists. reflexivity.
  - rewrite H. cbn [length weights Nat.eqb].
    destruct f as [|x [|y f]]; try discriminate. eexists. reflexivity.
Qed.

Lemma fallback_range_or_nan f :
  length f = 14%nat \/ length f = 1%nat ->
  exists b, _calculate_fallback_biomass f = Return b /\
    (is_nan b = true \/ in_range biomass_lo biomass_hi b = true).
Proof.
  intros H. destruct (np_multiply_weights f H) as (products & P).
  unfold _calculate_fallback_biomass. rewrite P. cbn [bind].
  eexists. split; [reflexivity|]. apply np_clip_range_or_nan; reflexivity.
Qed.

(** X6.  For a vector of fourteen features (or of one, which NumPy
    broadcasts against the weights), whatever their values,
    [_calculate_fallback_biomass] returns a NaN or a number between 0.1 and
    50. *)
Theorem fallback_biomass_range_or_nan f :
  length f = 14%nat \/ length f = 1%nat ->
  exists b, _calculate_fallback_biomass f = Return b /\
    (is_nan b = true \/ in_range biomass_lo biomass_hi b = true).
Proof. exact (fallback_range_or_nan f). Qed.

Lemma fallback_biomass_range_or_nan_witness :
  exists b, _calculate_fallback_biomass (repeat (of_Z64 (-3)) 14) = Return b /\
    (is_nan b = true \/ in_range biomass_lo biomass_hi b = true).
Proof.
  apply (fallback_biomass_range_or_nan (repeat (of_Z64 (-3)) 14)).
  left. reflexivity.
Defined.

(** X7.  A feature vector whose length is neither 14 nor 1 cannot be
    multiplied with the fourteen weights: [_calculate_fallback_biomass]
    raises a [ValueError]. *)
Theorem fallback_biomass_wrong_length f :
  length f <> 14%nat -> length f <> 1%nat ->
  exists msg, _calculate_fallback_biomass f = Raise (Exn "ValueError" msg).
Proof.
  intros H14 H1. unfold _calculate_fallback_biomass, np_multiply.
  apply Nat.eqb_neq in H14. cbn [length weights].
  change (Nat.eqb (length f) 14) with (Nat.eqb (length f) 14%nat).
  rewrite H14.
  destruct f as [|x [|y f]]; [| exfalso; apply H1; reflexivity |];
    cbn [bind]; eexists; reflexivity.
Qed.

Lemma fallback_biomass_wrong_length_witness :
  exists msg,
    _calculate_fallback_biomass [of_Z64 1; of_Z64 2; of_Z64 3]
    = Raise (Exn "ValueError" msg).
Proof.
  apply (fallback_biomass_wrong_length [of_Z64 1; of_Z64 2; of_Z64 3]);
    cbn [length]; lia.
Defined.

(** ** estimate_biomass *)

Lemma estimate_biomass_body_fields W model path md t a :
  estimate_biomass_body W model path md t = Return a ->
  exists img row,
    preprocess_image W path = Return img /\
    extract_features W img md = [row] /\
    length row = 14%nat /\
    features a = combine feature_names row /\
    model_type (analysis_metadata a) = model_type_name model /\
    feature_count (analysis_metadata a) = 14%nat /\
    image_resolution (analysis_metadata a)
    = (decimal_of_Z (shape1 img) ++ "x" ++ decimal_of_Z (shape0 img))%string.
Proof.
  unfold estimate_biomass_body. intros H.
  apply bind_Return in H. destruct H as (img & Hi & H).
  apply bind_Return in H. destruct H as (scaled & Hs & H).
  apply bind_Return in H. destruct H as (b & Hb & H).
  apply bind_Return in H. destruct H as (row & Hr & H).
  injection H as <-.
  cbn [features analysis_metadata model_type feature_count image_resolution].
  destruct (extract_features_shape W img md) as (row' & E & L).
  rewrite E in Hr. injection Hr as <-.
  exists img, row'. repeat split; assumption.
Qed.

(** X8.  Without a model ([self.model is None]) a successful estimate
    reports a biomass that is a NaN or lies between 0.1 and 50: the
    fourteen unscaled features always fit the weights of the fallback. *)
Theorem estimate_biomass_without_model W path md t a :
  fst (estimate_biomass W None path md t) = Analysis a ->
  model_type (analysis_metadata a) = "NoneType"%string /\
  (is_nan (biomass_estimate_kg_m2 a) = true \/
   in_range biomass_lo biomass_hi (biomass_estimate_kg_m2 a) = true).
Proof.
  intros H. apply estimate_biomass_Analysis in H.
  destruct (estimate_biomass_body_fields _ _ _ _ _ _ H)
    as (img & row & Hi & E & L & _ & M & _).
  split; [exact M|].
  destruct (estimate_biomass_body_Return _ _ _ _ _ _ H)
    as (img' & scaled & row' & Hi' & _ & Hr & Hp & _).
  rewrite Hi in Hi'. injection Hi' as <-.
  rewrite E in Hr, Hp. injection Hr as <-.
  cbn [predict_biomass getitem nth_error bind] in Hp.
  destruct (fallback_range_or_nan row (or_introl L)) as (b & Hb & R).
  rewrite Hb in Hp. injection Hp as <-. exact R.
Qed.

Lemma estimate_biomass_without_model_witness :
  exists a,
    fst (estimate_biomass example_world None "site_a.jpg" None 0) = Analysis a /\
    model_type (analysis_metadata a) = "NoneType"%string /\
    (is_nan (biomass_estimate_kg_m2 a) = true \/
     in_range biomass_lo biomass_hi (biomass_estimate_kg_m2 a) = true).
Proof.
  eexists. split; [vm_compute; reflexivity|].
  apply (estimate_biomass_without_model example_world "site_a.jpg" None 0 _
           ltac:(vm_compute; reflexivity)).
Defined.

(** X9.  An infinite feature, from the image or from the metadata, makes
    the estimate an error-tagged result whatever the backend (the fallback
    included): the scaler refuses the row before any prediction. *)
Theorem infinite_feature_is_an_error W model path md t img :
  preprocess_image W path = Return img ->
  existsb (existsb is_inf) (extract_features W img md) = true ->
  exists msg,
    fst (estimate_biomass W model path md t) = ErrorResult msg path (now W t).
Proof.
  intros Hi Hf. unfold estimate_biomass, estimate_biomass_body.
  rewrite Hi. cbn [bind fst]. unfold scaled_features, fit_transform.
  destruct (extract_features_shape W img md) as (row & E & _).
  rewrite E in *. rewrite Hf. cbn [bind try_except]. eexists. reflexivity.
Qed.

Lemma infinite_feature_is_an_error_witness :
  exists msg,
    fst (estimate_biomass example_world None "site_a.jpg"
           (Some [("temperature"%string, S754_infinity false)]) 0)
    = ErrorResult msg "site_a.jpg" (now example_world 0).
Proof.
  apply (infinite_feature_is_an_error example_world None "site_a.jpg"
           (Some [("temperature"%string, S754_infinity false)]) 0
           site_a_normalized).
  - reflexivity.
  - vm_compute. reflexivity.
Defined.

Lemma map_const {A B} (f : A -> B) c l :
  (forall x, In x l -> f x = c) -> map f l = repeat c (length l).
Proof.
  induction l as [|x l IH]; intros H; cbn; [reflexivity|].
  rewrite (H x (or_introl eq_refl)), IH; [reflexivity|].
  intros y Hy. apply H. right. exact Hy.
Qed.

Lemma standardize_ordinary x :
  ordinary x = true -> standardize [x] x = zero64.
Proof.
  unfold ordinary. intros H. apply andb_true_iff in H. destruct H as [H Z].
  destruct x as [s|s| |s m e]; try discriminate.
  - destruct s; [discriminate|]. vm_compute. reflexivity.
  - pose proof (np_mean_axis_single _ H eq_refl) as M.
    unfold standardize, scaler_mean, scaler_scale, np_std_axis, np_var_axis, present.
    cbn [filter is_nan negb]. cbv zeta. unfold f64 in *. rewrite M. cbn [map].
    unfold sub64. rewrite SFsub_diag_finite. reflexivity.
Qed.

Lemma transform_row_ordinary row :
  forallb ordinary row = true ->
  transform_row [row] row = repeat zero64 (length row).
Proof.
  intros H. unfold transform_row.
  rewrite (map_const _ zero64).
  - rewrite length_combine, length_seq, Nat.min_id. reflexivity.
  - intros [j x] Hin. cbn [fst snd].
    pose proof (combine_seq_nth row S754_nan 0%nat j x Hin) as N.
    rewrite Nat.sub_0_r in N.
    unfold column. cbn [map]. unfold f64 in *. rewrite N.
    apply standardize_ordinary.
    rewrite forallb_forall in H. apply H. eapply in_combine_r, Hin.
Qed.

Lemma ordinary_not_inf row :
  forallb ordinary row = true -> existsb is_inf row = false.
Proof.
  intros H. apply finite64_not_inf. revert H. apply forallb_impl.
  unfold ordinary. intros x Hx. apply andb_true_iff in Hx. apply Hx.
Qed.

Lemma scaled_features_ordinary W img md row :
  extract_features W img md = [row] ->
  forallb ordinary row = true ->
  scaled_features W img md = Return [repeat zero64 (length row)].
Proof.
  intros E H. unfold scaled_features, fit_transform. rewrite E.
  cbn [existsb]. rewrite (ordinary_not_inf _ H). cbn [orb map].
  rewrite (transform_row_ordinary _ H). reflexivity.
Qed.

Lemma forallb_snd_combine {A B} (f : B -> bool) : forall (l : list A) (r : list B),
  length l = length r ->
  forallb (fun kv => f (snd kv)) (combine l r) = forallb f r.
Proof.
  induction l as [|a l IH]; intros [|b r] L; cbn in *; try discriminate;
    [reflexivity|].
  rewrite IH by congruence. reflexivity.
Qed.

Lemma map_fst_combine {A B} : forall (l : list A) (r : list B),
  length l = length r -> map fst (combine l r) = l.
Proof.
  induction l as [|a l IH]; intros [|b r] L; cbn in *; try discriminate;
    [reflexivity|].
  rewrite IH by congruence. reflexivity.
Qed.

Lemma backend_input W b path md t a :
  estimate_biomass_body W (Some b) path md t = Return a ->
  forallb (fun kv => ordinary (snd kv)) (features a) = true ->
  predict_biomass (Some b) [] [repeat zero64 14]
  = Return (biomass_estimate_kg_m2 a).
Proof.
  intros H F.
  destruct (estimate_biomass_body_fields _ _ _ _ _ _ H)
    as (img & row & Hi & E & L & Hf & _).
  destruct (estimate_biomass_body_Return _ _ _ _ _ _ H)
    as (img' & scaled & row' & Hi' & Hs & _ & Hp & _).
  rewrite Hi in Hi'. injection Hi' as <-.
  rewrite Hf, forallb_snd_combine in F by (rewrite L; reflexivity).
  rewrite (scaled_features_ordinary _ _ _ _ E F), L in Hs. injection Hs as <-.
  rewrite <- Hp. destruct b; reflexivity.
Qed.

(** X10.  The scaler is fit on the one row it transforms, so a backend is
    always asked about the same all-zero row: two successful estimates by
    the same backend, on any two images, report the same biomass whenever
    their reported features are finite numbers other than the negative
    zero. *)
Theorem backend_prediction_is_constant W W' b path path' md md' t t' a a' :
  fst (estimate_biomass W (Some b) path md t) = Analysis a ->
  fst (estimate_biomass W' (Some b) path' md' t') = Analysis a' ->
  forallb (fun kv => ordinary (snd kv)) (features a) = true ->
  forallb (fun kv => ordinary (snd kv)) (features a') = true ->
  biomass_estimate_kg_m2 a = biomass_estimate_kg_m2 a'.
Proof.
  intros H H' F F'.
  apply estimate_biomass_Analysis in H. apply estimate_biomass_Analysis in H'.
  pose proof (backend_input _ _ _ _ _ _ H F) as P.
  pose proof (backend_input _ _ _ _ _ _ H' F') as P'.
  rewrite P in P'. injection P' as E. exact E.
Qed.

(** X11.  A successful estimate names its fourteen features in the fixed
    order, and its metadata give the class name of the model, the feature
    count 14 and the resolution of the preprocessed image as width x
    height. *)
Theorem analysis_reports_named_features W model path md t a :
  fst (estimate_biomass W model path md t) = Analysis a ->
  map fst (features a) = feature_names /\
  model_type (analysis_metadata a) = model_type_name model /\
  feature_count (analysis_metadata a) = 14%nat /\
  exists img,
    preprocess_image W path = Return img /\
    image_resolution (analysis_metadata a)
    = (decimal_of_Z (shape1 img) ++ "x" ++ decimal_of_Z (shape0 img))%string.
Proof.
  intros H. apply estimate_biomass_Analysis in H.
  destruct (estimate_biomass_body_fields _ _ _ _ _ _ H)
    as (img & row & Hi & E & L & Hf & M & C & R).
  split. { rewrite Hf. apply map_fst_combine. rewrite L. reflexivity. }
  split; [exact M|]. split; [exact C|]. exists img. split; assumption.
Qed.

Lemma analysis_reports_named_features_witness :
  exists a,
    fst (estimate_biomass example_world example_model "site_a.jpg" None 0) = Analysis a /\
    map fst (features a) = feature_names /\
    feature_count (analysis_metadata a) = 14%nat.
Proof.
  eexists. split; [vm_compute; reflexivity|].
  split; apply (analysis_reports_named_features example_world example_model
                  "site_a.jpg" None 0 _ ltac:(vm_compute; reflexivity)).
Defined.

Lemma backend_prediction_is_constant_witness :
  exists a a',
    fst (estimate_biomass example_world (Some linear_backend) "site_a.jpg" None 0)
      = Analysis a /\
    fst (estimate_biomass example_world (Some linear_backend) "site_b.jpg" None 1)
      = Analysis a' /\
    biomass_estimate_kg_m2 a = biomass_estimate_kg_m2 a'.
Proof.
  eexists. eexists.
  split; [vm_compute; reflexivity|]. split; [vm_compute; reflexivity|].
  apply (backend_prediction_is_constant example_world example_world linear_backend
           "site_a.jpg" "site_b.jpg" None None 0 1 _ _
           ltac:(vm_compute; reflexivity) ltac:(vm_compute; reflexivity));
    vm_compute; reflexivity.
Defined.

(** X12.  A successful estimate whose NDVI mean, height mean or canopy
    cover is a NaN reports a NaN as its confidence score. *)
Theorem nan_feature_gives_nan_confidence W model path md t a :
  fst (estimate_biomass W model path md t) = Analysis a ->
  existsb (fun kv => quality_feature (fst kv) && is_nan (snd kv)) (features a) = true ->
  is_nan (confidence_score a) = true.
Proof.
  intros H F. apply estimate_biomass_Analysis in H.
  destruct (estimate_biomass_body_fields _ _ _ _ _ _ H)
    as (img & row & Hi & E & L & Hf & _).
  destruct (estimate_biomass_body_Return _ _ _ _ _ _ H)
    as (img' & scaled & row' & Hi' & _ & Hr & _ & _ & _ & _ & _ & C).
  rewrite Hi in Hi'. injection Hi' as <-.
  rewrite E in Hr. injection Hr as <-.
  rewrite C. rewrite Hf in F. clear - L F.
  do 14 (destruct row as [|? row]; [discriminate|]).
  destruct row; [|discriminate].
  unfold feature_names in F. cbn [combine existsb fst snd] in F.
  unfold quality_feature in F. cbn [String.eqb Ascii.eqb Bool.eqb andb orb] in F.
  eapply confidence_nan; [reflexivity|reflexivity|reflexivity|].
  rewrite !orb_false_r in F. rewrite <- F.
  rewrite <- !orb_assoc. reflexivity.
Qed.

Lemma nan_feature_gives_nan_confidence_witness :
  exists a,
    fst (estimate_biomass example_world example_model "glint.jpg" None 0) = Analysis a /\
    is_nan (confidence_score a) = true.
Proof.
  eexists. split; [vm_compute; reflexivity|].
  apply (nan_feature_gives_nan_confidence example_world example_model
           "glint.jpg" None 0 _ ltac:(vm_compute; reflexivity)).
  vm_compute. reflexivity.
Defined.

(** ** calculate_canopy_cover *)

Lemma below_one_not_above_forty x :
  SFleb x (of_Z32 1) = true -> SFleb (of_Z32 40) x = false.
Proof.
  assert (O : of_Z32 1 = S754_finite false 8388608 (-23)) by (vm_compute; reflexivity).
  assert (F : of_Z32 40 = S754_finite false 10485760 (-18)) by (vm_compute; reflexivity).
  rewrite O, F. unfold SFleb.
  destruct x as [s|s| |s m e]; cbn [SFcompare]; try reflexivity;
    try (destruct s; (reflexivity || discriminate)).
  destruct s; [reflexivity|].
  destruct (Z.compare_spec e (-23)) as [E|E|E]; try discriminate.
  - subst e. reflexivity.
  - intros _. destruct (Z.compare_spec (-18) e) as [E'|E'|E']; try reflexivity; lia.
Qed.

Lemma unit_pixel_saturation p :
  unit_pixel p = true -> SFleb (chan1 p) (of_Z32 1) = true.
Proof.
  unfold unit_pixel, unit_channel, in_range. intros H.
  apply andb_true_iff in H. destruct H as [H _].
  apply andb_true_iff in H. destruct H as [_ H].
  apply andb_true_iff in H. destruct H as [_ H].
  apply andb_true_iff in H. destruct H as [_ H]. exact H.
Qed.

(** X13.  OpenCV leaves the saturation of a float image between 0 and 1,
    and the lower bound of the green band asks for at least 40: on an image
    of the canonical normalized size no pixel is inside the band and the
    canopy cover is exactly 0.0. *)
Theorem canopy_cover_zero_on_unit_images W img :
  canonical img ->
  (forall p, unit_pixel p = true ->
     SFleb (chan1 (rgb2hsv W p)) (of_Z32 1) = true) ->
  (forall q, inRange W q lower_green upper_green
             = cv2_inRange q lower_green upper_green) ->
  calculate_canopy_cover W img = zero64.
Proof.
  intros C Hs Hr. destruct (canonical_nonempty img C) as (p & ps & P).
  destruct C as (S0 & S1 & L & U).
  unfold calculate_canopy_cover, cvtColor. rewrite P.
  cbn [bind try_except map_image shape0 shape1 pixels].
  rewrite S0, S1. rewrite map_map.
  rewrite (filter_none (fun b : bool => b)); [vm_compute; reflexivity|].
  clear - U Hs Hr. induction (pixels img) as [|x l IH]; [reflexivity|].
  cbn [forallb] in U. apply andb_true_iff in U. destruct U as [Ux Ul].
  cbn [map existsb]. rewrite (IH Ul), orb_false_r, Hr.
  unfold cv2_inRange, lower_green, upper_green. cbn [fst snd].
  unfold in_range at 2.
  rewrite (below_one_not_above_forty _ (Hs x Ux)).
  rewrite andb_false_r. reflexivity.
Qed.

Lemma canopy_cover_zero_on_unit_images_witness :
  calculate_canopy_cover example_world grey_canvas = zero64.
Proof.
  apply (canopy_cover_zero_on_unit_images example_world grey_canvas).
  - apply grey_canvas_canonical.
  - intros p Hp. apply unit_pixel_saturation, Hp.
  - intros q. reflexivity.
Defined.

(** ** __init__, _initialize_default_model, load_model *)

(** X14.  After construction the analyzer always has a model: the Keras
    model that was loaded, when the path is given, is not empty, exists and
    loads; the default random forest in every other case, a failed load
    included. *)
Theorem init_always_has_a_model S mp :
  exists b, __init__ S mp = Some b /\
    (b = _initialize_default_model \/
     exists p name predict,
       mp = Some p /\ String.eqb p "" = false /\ path_exists S p = true /\
       load_keras S p = Return (name, predict) /\
       b = KerasModel name predict).
Proof.
  unfold __init__. destruct mp as [p|]; [|eexists; split; [reflexivity|left; reflexivity]].
  destruct (String.eqb p "") eqn:E; cbn [negb andb];
    [eexists; split; [reflexivity|left; reflexivity]|].
  destruct (path_exists S p) eqn:X;
    [|eexists; split; [reflexivity|left; reflexivity]].
  eexists. split; [reflexivity|]. unfold load_model.
  destruct (load_keras S p) as [[name predict]|e] eqn:K.
  - right. exists p, name, predict. repeat split; assumption.
  - left. reflexivity.
Qed.

Lemma default_model_body_raises W path md t :
  exists e,
    estimate_biomass_body W (Some _initialize_default_model) path md t = Raise e.
Proof.
  unfold estimate_biomass_body.
  destruct (preprocess_image W path) as [img|e]; [|eexists; reflexivity].
  cbn [bind]. destruct (scaled_features W img md) as [sc|e]; [|eexists; reflexivity].
  cbn [bind predict_biomass _initialize_default_model]. eexists. reflexivity.
Qed.

Lemma default_model_error W path md t :
  exists msg,
    fst (estimate_biomass W (Some _initialize_default_model) path md t)
    = ErrorResult msg path (now W t).
Proof.
  destruct (default_model_body_raises W path md t) as (e & H).
  unfold estimate_biomass. rewrite H. cbn [bind try_except fst].
  eexists. reflexivity.
Qed.

Lemma default_model_no_valid_results W md paths : forall t,
  valid_results
    (per_image_results W (Some _initialize_default_model) md paths t) = [].
Proof.
  induction paths as [|p paths IH]; intros t; [reflexivity|].
  cbn [per_image_results]. destruct (default_model_error W p md t) as (msg & ->).
  unfold valid_results in *. cbn [filter has_error negb]. apply IH.
Qed.

(** X15.  The default random forest is never fitted, so an analyzer that
    was constructed with it gives an error-tagged result for every image and
    the error [No valid analysis results] for every batch. *)
Theorem default_model_never_estimates W S mp path paths md t :
  __init__ S mp = Some _initialize_default_model ->
  has_error (fst (estimate_biomass W (__init__ S mp) path md t)) = true /\
  analyze_multiple_images W (__init__ S mp) paths md t
  = BatchError "No valid analysis results".
Proof.
  intros ->. split.
  - destruct (default_model_error W path md t) as (msg & ->). reflexivity.
  - pose proof (analyze_multiple_images_spec W (Some _initialize_default_model)
                  paths md t) as H. cbv zeta in H.
    rewrite default_model_no_valid_results in H. exact H.
Qed.

Lemma default_model_never_estimates_witness :
  has_error (fst (estimate_biomass example_world
                    (__init__ example_store (Some "model.h5"%string))
                    "site_a.jpg" None 0)) = true /\
  analyze_multiple_images example_world
    (__init__ example_store (Some "model.h5"%string))
    ["site_a.jpg"; "site_b.jpg"]%string None 0
  = BatchError "No valid analysis results".
Proof.
  apply (default_model_never_estimates example_world example_store
           (Some "model.h5"%string) "site_a.jpg"
           ["site_a.jpg"; "site_b.jpg"]%string None 0).
  reflexivity.
Defined.

(** ** generate_report *)

Lemma generate_report_error generated d msg out fs :
  error_of d = Some msg ->
  generate_report generated d out fs
  = (join newline (report_header generated ++ [("ERROR: " ++ msg)%string]), fs).
Proof. intros H. unfold generate_report. rewrite H. reflexivity. Qed.

(** X16.  For an error-tagged dictionary, of one image or of a batch, the
    report is the header followed by the one line [ERROR: ...], without the
    closing banner, and nothing is written, whatever the output path. *)
Theorem generate_report_error_input generated d msg out fs :
  error_of d = Some msg ->
  generate_report generated d out fs
  = (join newline
       [ banner; "BLUE CARBON BIOMASS ANALYSIS REPORT"%string; banner;
         ("Generated: " ++ generated)%string; ""%string;
         ("ERROR: " ++ msg)%string ],
     fs).
Proof. exact (generate_report_error generated d msg out fs). Qed.

Lemma generate_report_error_input_witness :
  generate_report "2025-01-01 10:00:00"
    (OfBatch (analyze_multiple_images example_world example_model
                ["missing.jpg"]%string None 0))
    (Some "out.txt"%string) example_fs
  = (join newline
       [ banner; "BLUE CARBON BIOMASS ANALYSIS REPORT"%string; banner;
         "Generated: 2025-01-01 10:00:00"%string; ""%string;
         "ERROR: No valid analysis results"%string ],
     example_fs).
Proof.
  apply (generate_report_error_input "2025-01-01 10:00:00"
           (OfBatch (analyze_multiple_images example_world example_model
                       ["missing.jpg"]%string None 0))
           "No valid analysis results" (Some "out.txt"%string) example_fs).
  reflexivity.
Defined.

(** X17.  When the dictionary carries no error and the output path is
    writable, the file at that path holds exactly the returned report, which
    is the report that is returned without an output path; every other file
    is left as it was. *)
Theorem generate_report_writes_what_it_returns generated d p fs :
  error_of d = None -> String.eqb p "" = false -> writable fs p = true ->
  fst (generate_report generated d (Some p) fs)
  = fst (generate_report generated d None fs) /\
  read_file (snd (generate_report generated d (Some p) fs)) p
  = Some (fst (generate_report generated d (Some p) fs)) /\
  (forall q, String.eqb p q = false ->
     read_file (snd (generate_report generated d (Some p) fs)) q = read_file fs q) /\
  snd (generate_report generated d None fs) = fs.
Proof.
  intros E Hp Hw. unfold generate_report, write_file. rewrite E, Hp, Hw.
  cbn [bind try_except fst snd]. unfold read_file. cbn [files lookup_file].
  rewrite String.eqb_refl. split; [reflexivity|]. split; [reflexivity|].
  split; [|reflexivity]. intros q Hq. rewrite Hq. reflexivity.
Qed.

Lemma generate_report_writes_what_it_returns_witness :
  read_file
    (snd (generate_report "2025-01-01 10:00:00"
            (OfImage (fst (estimate_biomass example_world example_model
                             "site_a.jpg" None 0)))
            (Some "out.txt"%string) example_fs)) "out.txt"
  = Some (fst (generate_report "2025-01-01 10:00:00"
            (OfImage (fst (estimate_biomass example_world example_model
                             "site_a.jpg" None 0)))
            (Some "out.txt"%string) example_fs)) /\
  read_file
    (snd (generate_report "2025-01-01 10:00:00"
            (OfImage (fst (estimate_biomass example_world example_model
                             "site_a.jpg" None 0)))
            (Some "out.txt"%string) example_fs)) "notes.txt"
  = Some "keep"%string.
Proof.
  pose proof (generate_report_writes_what_it_returns "2025-01-01 10:00:00"
                (OfImage (fst (estimate_biomass example_world example_model
                                 "site_a.jpg" None 0)))
                "out.txt" example_fs
                ltac:(vm_compute; reflexivity) eq_refl eq_refl) as H.
  destruct H as (_ & R & F & _). split; [exact R|].
  rewrite (F "notes.txt"%string eq_refl). reflexivity.
Defined.

(** X18.  When the dictionary carries no error and the output path cannot
    be opened for writing, the function returns the text
    [Error generating report: ...] in place of the report and leaves the
    files as they were. *)
Theorem generate_report_write_failure generated d p fs :
  error_of d = None -> String.eqb p "" = false -> writable fs p = false ->
  exists msg,
    generate_report generated d (Some p) fs
    = (("Error generating report: " ++ msg)%string, fs).
Proof.
  intros E Hp Hw. unfold generate_report, write_file. rewrite E, Hp, Hw.
  cbn [bind try_except]. eexists. reflexivity.
Qed.

Lemma generate_report_write_failure_witness :
  exists msg,
    generate_report "2025-01-01 10:00:00"
      (OfImage (fst (estimate_biomass example_world example_model
                       "site_a.jpg" None 0)))
      (Some "missing_dir/out.txt"%string) example_fs
    = (("Error generating report: " ++ msg)%string, example_fs).
Proof.
  apply (generate_report_write_failure "2025-01-01 10:00:00"
           (OfImage (fst (estimate_biomass example_world example_model
                            "site_a.jpg" None 0)))
           "missing_dir/out.txt" example_fs).
  - vm_compute. reflexivity.
  - reflexivity.
  - reflexivity.
Defined.

(** ** main *)

(** X19.  [main] builds its analyzer without a model path, so the
    estimate it asks for is error-tagged: it never writes
    [biomass_report.txt].  It prints the header with an [ERROR:] line when
    the sample image exists and the not-found message otherwise. *)
Theorem main_never_writes W S generated t fs :
  snd (main W S generated t fs) = fs /\
  if path_exists S "sample_drone_image.jpg"
  then exists msg,
    fst (main W S generated t fs)
    = join newline (report_header generated ++ [("ERROR: " ++ msg)%string])
  else
    fst (main W S generated t fs)
    = "Sample image sample_drone_image.jpg not found. Please provide a valid image path."%string.
Proof.
  unfold main. cbn [__init__].
  destruct (path_exists S "sample_drone_image.jpg"); [|split; reflexivity].
  match goal with
  | |- context [estimate_biomass W _ ?p ?md t] =>
      destruct (default_model_error W p md t) as (msg & ->)
  end.
  rewrite (generate_report_error generated _ msg) by reflexivity.
  split; [reflexivity|]. exists msg. reflexivity.
Qed.

(** ** analyze_multiple_images *)

Lemma estimate_biomass_path_stamp W model path md t :
  result_path (fst (estimate_biomass W model path md t)) = path /\
  result_stamp (fst (estimate_biomass W model path md t)) = now W t.
Proof.
  unfold estimate_biomass. cbn [fst].
  destruct (estimate_biomass_body W model path md t) as [a|e] eqn:B.
  - destruct (estimate_biomass_body_Return _ _ _ _ _ _ B)
      as (img & sc & row & _ & _ & _ & _ & P & T & _).
    cbn [bind try_except result_path result_stamp]. split; assumption.
  - split; reflexivity.
Qed.

Lemma per_image_results_keys W model md paths : forall t,
  map (fun r => (result_path r, result_stamp r))
      (per_image_results W model md paths t)
  = combine paths (map (now W) (seq t (length paths))).
Proof.
  induction paths as [|p paths IH]; intros t; [reflexivity|].
  cbn [per_image_results map length seq combine].
  destruct (estimate_biomass_path_stamp W model p md t) as [-> ->].
  rewrite IH. reflexivity.
Qed.

Lemma subsequence_filter {A} (f : A -> bool) l : subsequence (filter f l) l.
Proof.
  induction l as [|x l IH]; cbn; [constructor|].
  destruct (f x); constructor; exact IH.
Qed.

Lemma subsequence_map {A B} (g : A -> B) l m :
  subsequence l m -> subsequence (map g l) (map g m).
Proof. induction 1; cbn; constructor; assumption. Qed.

Lemma aggregate_timestamp_spec W model paths md t agg :
  analyze_multiple_images W model paths md t = Aggregated agg ->
  aggregate_timestamp agg = now W (t + length paths)%nat.
Proof.
  intros H.
  pose proof (analyze_multiple_images_spec W model paths md t) as S. cbv zeta in S.
  destruct (valid_results (per_image_results W model md paths t)) as [|r0 rest] eqn:V.
  - congruence.
  - destruct S as (b & c & o & _ & _ & _ & HA). rewrite HA in H.
    injection H as <-. reflexivity.
Qed.

(** X20.  The individual results of a batch keep the input order: paired
    with the clock readings of the successive images, their paths and time
    stamps are a subsequence of the input paths.  The time stamp of the
    aggregate is the clock reading after the last image. *)
Theorem batch_results_in_input_order W model paths md t agg :
  analyze_multiple_images W model paths md t = Aggregated agg ->
  subsequence
    (map (fun r => (result_path r, result_stamp r)) (individual_results agg))
    (combine paths (map (now W) (seq t (length paths)))) /\
  aggregate_timestamp agg = now W (t + length paths)%nat.
Proof.
  intros H. split; [|exact (aggregate_timestamp_spec _ _ _ _ _ _ H)].
  destruct (analyze_multiple_images_Aggregated _ _ _ _ _ _ H) as (_ & _ & ->).
  rewrite <- (per_image_results_keys W model md paths t). apply subsequence_map.
  unfold valid_results. apply subsequence_filter.
Qed.

Lemma batch_results_in_input_order_witness :
  exists agg,
    analyze_multiple_images example_world example_model
      ["site_b.jpg"; "missing.jpg"; "site_a.jpg"]%string None 0 = Aggregated agg /\
    subsequence
      (map (fun r => (result_path r, result_stamp r)) (individual_results agg))
      [ ("site_b.jpg", "T0"); ("missing.jpg", "T1"); ("site_a.jpg", "T2") ]%string /\
    aggregate_timestamp agg = "T3"%string.
Proof.
  eexists. split; [vm_compute; reflexivity|].
  apply (batch_results_in_input_order example_world example_model
           ["site_b.jpg"; "missing.jpg"; "site_a.jpg"]%string None 0 _
           ltac:(vm_compute; reflexivity)).
Defined.

Lemma summarize_extrema values s :
  summarize values = Return s ->
  In (Summary.min s) values /\ In (Summary.max s) values.
Proof.
  unfold summarize. destruct values as [|v vs]; [discriminate|].
  cbn [np_min np_max bind]. intros H. injection H as <-.
  cbn [Summary.min Summary.max]. split.
  - apply fold_minimum_in.
  - apply fold_maximum_in.
Qed.

Lemma in_analyses_of rs a : In a (analyses_of rs) -> In (Analysis a) (valid_results rs).
Proof.
  unfold analyses_of, valid_results. intros H. apply in_flat_map in H.
  destruct H as (r & Hr & Ha). destruct r as [a'|]; [|contradiction].
  destruct Ha as [<-|[]]. apply filter_In. split; [exact Hr|reflexivity].
Qed.

Lemma batch_summaries W model paths md t agg :
  analyze_multiple_images W model paths md t = Aggregated agg ->
  let valid := analyses_of (per_image_results W model md paths t) in
  summarize (map biomass_estimate_kg_m2 valid) = Return (biomass_summary agg) /\
  summarize (map carbon_content_kg_m2 valid) = Return (carbon_summary agg) /\
  summarize (map co2_equivalent_kg_m2 valid) = Return (co2_summary agg) /\
  individual_results agg = valid_results (per_image_results W model md paths t).
Proof.
  intros H. cbv zeta.
  pose proof (analyze_multiple_images_spec W model paths md t) as S. cbv zeta in S.
  destruct (valid_results (per_image_results W model md paths t)) as [|r0 rest] eqn:V.
  - congruence.
  - destruct S as (b & c & o & Hb & Hc & Ho & HA). rewrite HA in H.
    injection H as <-. cbn [biomass_summary carbon_summary co2_summary individual_results].
    repeat split; assumption.
Qed.

Lemma summary_attained (get : analysis -> f64) rs s :
  summarize (map get (analyses_of rs)) = Return s ->
  exists amin amax,
    In (Analysis amin) (valid_results rs) /\ In (Analysis amax) (valid_results rs) /\
    Summary.min s = get amin /\ Summary.max s = get amax.
Proof.
  intros H. destruct (summarize_extrema _ _ H) as [Imin Imax].
  apply in_map_iff in Imin. destruct Imin as (amin & Emin & Hmin).
  apply in_map_iff in Imax. destruct Imax as (amax & Emax & Hmax).
  exists amin, amax. repeat split; auto using in_analyses_of.
Qed.

(** X21.  The minimum and the maximum that a batch reports for biomass,
    carbon and CO2 are each the value of one of its individual results. *)
Theorem summary_extrema_are_attained W model paths md t agg :
  analyze_multiple_images W model paths md t = Aggregated agg ->
  (exists amin amax,
     In (Analysis amin) (individual_results agg) /\
     In (Analysis amax) (individual_results agg) /\
     Summary.min (biomass_summary agg) = biomass_estimate_kg_m2 amin /\
     Summary.max (biomass_summary agg) = biomass_estimate_kg_m2 amax) /\
  (exists amin amax,
     In (Analysis amin) (individual_results agg) /\
     In (Analysis amax) (individual_results agg) /\
     Summary.min (carbon_summary agg) = carbon_content_kg_m2 amin /\
     Summary.max (carbon_summary agg) = carbon_content_kg_m2 amax) /\
  (exists amin amax,
     In (Analysis amin) (individual_results agg) /\
     In (Analysis amax) (individual_results agg) /\
     Summary.min (co2_summary agg) = co2_equivalent_kg_m2 amin /\
     Summary.max (co2_summary agg) = co2_equivalent_kg_m2 amax).
Proof.
  intros H. destruct (batch_summaries _ _ _ _ _ _ H) as (Hb & Hc & Ho & ->).
  split; [|split]; eapply summary_attained; eassumption.
Qed.

Lemma summary_extrema_are_attained_witness :
  exists agg amin amax,
    analyze_multiple_images example_world example_model
      ["site_b.jpg"; "missing.jpg"; "site_a.jpg"]%string None 0 = Aggregated agg /\
    In (Analysis amin) (individual_results agg) /\
    In (Analysis amax) (individual_results agg) /\
    Summary.min (biomass_summary agg) = biomass_estimate_kg_m2 amin /\
    Summary.max (biomass_summary agg) = biomass_estimate_kg_m2 amax.
Proof.
  destruct (summary_extrema_are_attained example_world example_model
              ["site_b.jpg"; "missing.jpg"; "site_a.jpg"]%string None 0 _
              ltac:(vm_compute; reflexivity)) as ((amin & amax & H) & _).
  eexists. exists amin, amax. split; [vm_compute; reflexivity|]. exact H.
Defined.

Lemma np_mean_ordinary (x : spec_float) : ordinary x = true -> np_mean 53 1024 [x] = x.
Proof.
  unfold ordinary. intros H. apply andb_true_iff in H. destruct H as [H Z].
  destruct x as [s|s| |s m e]; try discriminate.
  - destruct s; [discriminate|]. vm_compute. reflexivity.
  - apply np_mean_single; [exact H|reflexivity].
Qed.

Lemma np_sum_ordinary (x : spec_float) : ordinary x = true -> np_sum 53 1024 [x] = x.
Proof.
  unfold ordinary. intros H. apply andb_true_iff in H. destruct H as [H Z].
  destruct x as [s|s| |s m e]; try discriminate.
  - destruct s; [discriminate|]. reflexivity.
  - reflexivity.
Qed.

Lemma np_std_ordinary (x : spec_float) : ordinary x = true -> np_std 53 1024 [x] = zero64.
Proof.
  intros H. pose proof (np_mean_ordinary x H) as M.
  unfold np_std, np_var. cbv zeta. unfold f64 in *. rewrite M. cbn [map].
  unfold ordinary in H. apply andb_true_iff in H. destruct H as [H Z].
  destruct x as [s|s| |s m e]; try discriminate.
  - destruct s; [discriminate|]. vm_compute. reflexivity.
  - rewrite SFsub_diag_finite. vm_compute. reflexivity.
Qed.

Lemma summarize_single x :
  ordinary x = true ->
  summarize [x]
  = Return {| Summary.mean := x; Summary.std := zero64; Summary.min := x;
              Summary.max := x; Summary.total := x |}.
Proof.
  intros H. unfold summarize. cbn [np_min np_max bind fold_left].
  unfold f64 in *.
  rewrite (np_mean_ordinary x H), (np_std_ordinary x H), (np_sum_ordinary x H).
  reflexivity.
Qed.

(** X22.  When exactly one image of a batch is valid and its biomass is a
    finite number other than the negative zero, the biomass summary has
    that value as its mean, minimum, maximum and total, and the standard
    deviation 0. *)
Theorem single_valid_result_statistics W model paths md t agg a :
  analyze_multiple_images W model paths md t = Aggregated agg ->
  individual_results agg = [Analysis a] ->
  ordinary (biomass_estimate_kg_m2 a) = true ->
  valid_analyses agg = 1%nat /\
  biomass_summary agg
  = {| Summary.mean := biomass_estimate_kg_m2 a;
       Summary.std := zero64;
       Summary.min := biomass_estimate_kg_m2 a;
       Summary.max := biomass_estimate_kg_m2 a;
       Summary.total := biomass_estimate_kg_m2 a |}.
Proof.
  intros H I O.
  destruct (analyze_multiple_images_Aggregated _ _ _ _ _ _ H) as (_ & Hv & Hi).
  destruct (batch_summaries _ _ _ _ _ _ H) as (Hb & _).
  rewrite I in Hi. rewrite <- Hi in Hv. split; [exact Hv|].
  rewrite <- analyses_of_valid, <- Hi in Hb.
  cbn [analyses_of flat_map app map] in Hb.
  rewrite (summarize_single _ O) in Hb. injection Hb as <-. reflexivity.
Qed.

Lemma single_valid_result_statistics_witness :
  exists agg,
    analyze_multiple_images example_world example_model
      ["missing.jpg"; "site_a.jpg"]%string None 0 = Aggregated agg /\
    valid_analyses agg = 1%nat /\
    Summary.mean (biomass_summary agg) = of_Z64 12 /\
    Summary.std (biomass_summary agg) = zero64.
Proof.
  eexists. split; [vm_compute; reflexivity|].
  destruct (single_valid_result_statistics example_world example_model
              ["missing.jpg"; "site_a.jpg"]%string None 0 _ _
              ltac:(vm_compute; reflexivity) ltac:(vm_compute; reflexivity)
              ltac:(vm_compute; reflexivity)) as (V & B).
  split; [exact V|]. rewrite B. split; vm_compute; reflexivity.
Defined.
